(** * Employee Engagement & Burnout dashboard (paloA.py): metrics layer

    A shallow embedding of the data-preparation, filtering, KPI and
    risk-classification statements of [src/paloA.py], together with the
    pandas and Python operations those statements call.  Page layout,
    charts and the grouped summaries that only feed charts are left out.

    Conventions of the embedding:
    - a [DataFrame] is the ordered list of its rows, a row being the finite
      map from column names to cells; a [Series] is the list of the cells of
      one column, in row order.  A cell is a string or a number, the number
      being possibly NaN (a missing value);
    - a Python/NumPy float is modelled by its exact rational value ([Qc]) or
      the explicit [NaN]; integers are the rationals with denominator one.
      Rounding to binary floating point is not modelled: a comparison or a
      [round] that the script performs on a float is performed here on the
      exact value.  The double that the script holds differs from the
      exact value by a relative error of about 2^-53 per operation, so the
      two agree except where the exact value lies on, or within that error
      of, a boundary of the comparison or of the rounding.  Statements are
      made where they agree: a statement about a percentage rounded to one
      decimal gives the nearest tenth, for tables small enough to keep
      percentages away from ties, and leaves open which neighbour is shown
      at an exact tie; a statement that turns a threshold on a computed
      index into one on its inputs is made for integer-valued inputs;
    - an exception aborts the script: fallible operations live in the
      [result] monad, and a definition raises what the statement it embeds
      raises first. *)

From Stdlib Require Import QArith Qcanon.
From stdpp Require Import base numbers strings list gmap.

Local Open Scope Qc_scope.

(** ** Exceptions and the error monad *)

Inductive exn : Type :=
  | KeyError (column : string)
  | TypeError
  | ZeroDivisionError.

Inductive result (A : Type) : Type :=
  | Ok (a : A)
  | Raise (e : exn).
Arguments Ok {A} a.
Arguments Raise {A} e.

#[global] Instance result_ret : MRet result := λ A a, Ok a.
#[global] Instance result_bind : MBind result := λ A B f m,
  match m with
  | Ok a => f a
  | Raise e => Raise e
  end.
#[global] Instance result_fmap : FMap result := λ A B f m,
  match m with
  | Ok a => Ok (f a)
  | Raise e => Raise e
  end.

(** ** Python scalars *)

Module Py.

(** A float: a finite value or NaN. *)
Inductive float : Type :=
  | Fin (q : Qc)
  | NaN.

Definition of_nat (n : nat) : Qc := Qc_of_Z (Z.of_nat n).

Definition add (x y : float) : float :=
  match x, y with
  | Fin a, Fin b => Fin (a + b)
  | _, _ => NaN
  end.

Definition mul (x y : float) : float :=
  match x, y with
  | Fin a, Fin b => Fin (a * b)
  | _, _ => NaN
  end.

(** [x / k] for a non-zero literal [k]. *)
Definition div_lit (x : float) (k : Qc) : float :=
  match x with
  | Fin a => Fin (a / k)
  | NaN => NaN
  end.

(** [x == y] and [x <= y]: every comparison with NaN is False. *)
Definition eqb (x y : float) : bool :=
  match x, y with
  | Fin a, Fin b => bool_decide (a = b)
  | _, _ => false
  end.

Definition leb (x y : float) : bool :=
  match x, y with
  | Fin a, Fin b => bool_decide (a ≤ b)
  | _, _ => false
  end.

(** [a / b] on two ints: true division, ZeroDivisionError on [b = 0]. *)
Definition truediv (a b : nat) : result float :=
  match b with
  | O => Raise ZeroDivisionError
  | S _ => Ok (Fin (of_nat a / of_nat b))
  end.

(** Nearest integer to a rational, ties to the even neighbour. *)
Definition round_half_even (q : Qc) : Z :=
  let n := Qnum q in
  let d := Z.pos (Qden q) in
  let f := ((2 * n + d) `div` (2 * d))%Z in
  if decide (((2 * n + d) `mod` (2 * d))%Z = 0%Z ∧ Z.odd f = true)
  then (f - 1)%Z else f.

Definition pow10 (ndigits : nat) : Qc := Qc_of_Z (10 ^ Z.of_nat ndigits).

(** [round(x, ndigits)], taken on the exact value, an exact tie going to the
    even neighbour; NaN rounds to NaN.  In the script the operand is a
    double: where the exact value is a tie the double lies at or beside it
    (23 / 80 * 100 is 28.749999999999996), and the script may show the other
    neighbour. *)
Definition round (x : float) (ndigits : nat) : float :=
  match x with
  | Fin q => Fin (Qc_of_Z (round_half_even (q * pow10 ndigits)) / pow10 ndigits)
  | NaN => NaN
  end.

End Py.

(** ** pandas: cells, Series, DataFrame *)

Module Pandas.

Inductive cell : Type :=
  | CStr (s : string)
  | CNum (x : Py.float).

Abbreviation CNaN := (CNum Py.NaN).
Abbreviation CVal q := (CNum (Py.Fin q)).

Abbreviation Series := (list cell).
Abbreviation Row := (gmap string cell).
Abbreviation DataFrame := (list (gmap string cell)).

#[global] Instance float_eq_dec : EqDecision Py.float.
Proof. solve_decision. Defined.
#[global] Instance cell_eq_dec : EqDecision cell.
Proof. solve_decision. Defined.

(** *** Element-wise operators *)

(** [a + b] on two cells.  Numbers add (NaN propagates); two strings
    concatenate; a missing operand masks the position to NaN; a string
    with a number raises TypeError. *)
Definition cell_add (a b : cell) : result cell :=
  match a, b with
  | CNum x, CNum y => Ok (CNum (Py.add x y))
  | CStr s, CStr t => Ok (CStr (s +:+ t))
  | CStr _, CNum x | CNum x, CStr _ =>
      match x with
      | Py.NaN => Ok CNaN
      | Py.Fin _ => Raise TypeError
      end
  end.

(** [a / k] for a numeric literal [k]: a string raises TypeError. *)
Definition cell_div (a : cell) (k : Qc) : result cell :=
  match a with
  | CNum x => Ok (CNum (Py.div_lit x k))
  | CStr _ => Raise TypeError
  end.

(** [a == v] against a numeric literal: never raises; a string is not
    equal to a number. *)
Definition cell_eq_num (a : cell) (v : Qc) : bool :=
  match a with
  | CNum x => Py.eqb x (Py.Fin v)
  | CStr _ => false
  end.

(** [a <= v] against a numeric literal: NaN is False, a string raises
    TypeError. *)
Definition cell_le_num (a : cell) (v : Qc) : result bool :=
  match a with
  | CNum x => Ok (Py.leb x (Py.Fin v))
  | CStr _ => Raise TypeError
  end.

(** *** Series *)

(** [s1 + s2] *)
Definition series_add (s1 s2 : Series) : result Series :=
  mapM (λ p, cell_add p.1 p.2) (zip s1 s2).

(** [s / k] *)
Definition series_div (s : Series) (k : Qc) : result Series :=
  mapM (λ a, cell_div a k) s.

(** [s == v] *)
Definition series_eq (s : Series) (v : Qc) : list bool :=
  map (λ a, cell_eq_num a v) s.

(** [s <= v] *)
Definition series_le (s : Series) (v : Qc) : result (list bool) :=
  mapM (λ a, cell_le_num a v) s.

(** [m1 & m2] on boolean Series *)
Definition mask_and (m1 m2 : list bool) : list bool :=
  zip_with andb m1 m2.

(** [s.map(d)] with a dict [d] keyed by strings: a value that is not a key
    of [d] maps to NaN. *)
Definition series_map (d : gmap string Qc) (s : Series) : Series :=
  map (λ a, match a with
            | CStr k => match d !! k with
                        | Some v => CVal v
                        | None => CNaN
                        end
            | CNum _ => CNaN
            end) s.

(** [s.isin(values)] *)
Definition series_isin (s : Series) (values : list cell) : list bool :=
  map (λ a, bool_decide (a ∈ values)) s.

(** The non-missing numbers of a Series; a string has no numeric value. *)
Definition numeric_values (s : Series) : result (list Qc) :=
  foldr (λ a acc,
           match a with
           | CVal q => cons q <$> acc
           | CNaN => acc
           | CStr _ => Raise TypeError
           end) (Ok []) s.

Definition sum_list (l : list Qc) : Qc := foldr Qcplus 0 l.

(** [s.mean()]: missing values are skipped; NaN when nothing is left. *)
Definition series_mean (s : Series) : result Py.float :=
  vs ← numeric_values s;
  match vs with
  | [] => Ok Py.NaN
  | _ :: _ => Ok (Py.Fin (sum_list vs / Py.of_nat (length vs)))
  end.

(** *** DataFrame *)

(** The cell of column [c] in one row; KeyError when the column is absent. *)
Definition row_get (r : Row) (c : string) : result cell :=
  match r !! c with
  | Some a => Ok a
  | None => Raise (KeyError c)
  end.

(** [df[c]]: the column as a Series.  The columns of a frame are those of
    its rows, so a frame without rows raises no KeyError, as a table that
    keeps its header when every row is filtered out. *)
Definition getitem (df : DataFrame) (c : string) : result Series :=
  mapM (λ r : Row, row_get r c) df.

(** [df[c] = s]: writes the Series into column [c], row by row. *)
Definition setitem (df : DataFrame) (c : string) (s : Series) : DataFrame :=
  zip_with (λ (r : Row) a, <[c := a]> r) df s.

(** [df[mask]]: the rows at which the boolean Series is True. *)
Fixpoint getitem_mask (df : DataFrame) (mask : list bool) : DataFrame :=
  match df, mask with
  | r :: df', b :: mask' =>
      if b then r :: getitem_mask df' mask' else getitem_mask df' mask'
  | _, _ => []
  end.

End Pandas.

Import Pandas.

(** ** The script

    Each definition embeds the statement of [paloA.py] named in its comment;
    the frame [df] it receives is the value of the variable [df] at that
    line. *)

(** The dict literal [{"Yes": 1, "No": 0}] of lines 36 and 37. *)
Definition yes_no : gmap string Qc :=
  {[ "Yes" := Qc_of_Z 1; "No" := Qc_of_Z 0 ]}.

(** Lines 36-44, DATA PREP: the three derived columns. *)
Definition data_prep (df : DataFrame) : result DataFrame :=
  attrition ← getitem df "Attrition";
  let df := setitem df "AttritionFlag" (series_map yes_no attrition) in
  overtime ← getitem df "OverTime";
  let df := setitem df "OverTimeFlag" (series_map yes_no overtime) in
  js ← getitem df "JobSatisfaction";
  es ← getitem df "EnvironmentSatisfaction";
  js_es ← series_add js es;
  wlb ← getitem df "WorkLifeBalance";
  total ← series_add js_es wlb;
  index ← series_div total (Qc_of_Z 3);
  mret (setitem df "EngagementIndex" index).

(** Line 55: [df = df[df["Department"].isin(dept)]]. *)
Definition department_filter (df : DataFrame) (dept : list cell)
  : result DataFrame :=
  department ← getitem df "Department";
  mret (getitem_mask df (series_isin department dept)).

(** Line 59: [total_employees = len(df)]. *)
Definition total_employees (df : DataFrame) : nat := length df.

(** Line 60: [attrition_count = df[df["Attrition"] == 1].shape[0]]. *)
Definition attrition_count (df : DataFrame) : result nat :=
  attrition ← getitem df "Attrition";
  mret (length (getitem_mask df (series_eq attrition (Qc_of_Z 1)))).

(** Line 61: the guarded attrition rate. *)
Definition attrition_rate (df : DataFrame) : result Py.float :=
  count ← attrition_count df;
  if decide (0 < total_employees df)%nat
  then ratio ← Py.truediv count (total_employees df);
       mret (Py.mul ratio (Py.Fin (Qc_of_Z 100)))
  else mret (Py.Fin (Qc_of_Z 0)).

(** Line 68: [round(df["EngagementIndex"].mean(), 2)]. *)
Definition avg_engagement_index (df : DataFrame) : result Py.float :=
  index ← getitem df "EngagementIndex";
  m ← series_mean index;
  mret (Py.round m 2).

(** Line 73: [round(df['OverTimeFlag'].mean()*100, 1)]. *)
Definition overtime_pct (df : DataFrame) : result Py.float :=
  flag ← getitem df "OverTimeFlag";
  m ← series_mean flag;
  mret (Py.round (Py.mul m (Py.Fin (Qc_of_Z 100))) 1).

(** Line 83: the High Burnout Risk % metric,
    [round(len(df[(df['OverTimeFlag']==1) & (df['WorkLifeBalance']<=2)])
           / len(df) * 100, 1)]. *)
Definition high_burnout_risk_pct (df : DataFrame) : result Py.float :=
  flag ← getitem df "OverTimeFlag";
  wlb ← getitem df "WorkLifeBalance";
  low_wlb ← series_le wlb (Qc_of_Z 2);
  let selected := getitem_mask df (mask_and (series_eq flag (Qc_of_Z 1)) low_wlb) in
  ratio ← Py.truediv (length selected) (length df);
  mret (Py.round (Py.mul ratio (Py.Fin (Qc_of_Z 100))) 1).

(** The float literal [2.5] of line 197. *)
Definition engagement_index_max : Qc := Q2Qc (5 # 2).

(** Lines 194-198: [risk_df]. *)
Definition risk_df (df : DataFrame) : result DataFrame :=
  flag ← getitem df "OverTimeFlag";
  wlb ← getitem df "WorkLifeBalance";
  low_wlb ← series_le wlb (Qc_of_Z 2);
  index ← getitem df "EngagementIndex";
  low_index ← series_le index engagement_index_max;
  mret (getitem_mask df
          (mask_and (mask_and (series_eq flag (Qc_of_Z 1)) low_wlb) low_index)).

(** Line 202: [round(len(risk_df)/len(df)*100, 1)], the share shown in the
    warning above the risk table. *)
Definition risk_pct (df : DataFrame) : result Py.float :=
  risk ← risk_df df;
  ratio ← Py.truediv (length risk) (length df);
  mret (Py.round (Py.mul ratio (Py.Fin (Qc_of_Z 100))) 1).

(** Lines 66-84, the KPI row: the four metrics in source order; the first
    exception ends the run. *)
Definition kpi_section (df : DataFrame)
  : result (Py.float * Py.float * Py.float * Py.float) :=
  rate ← attrition_rate df;
  engagement ← avg_engagement_index df;
  overtime ← overtime_pct df;
  burnout ← high_burnout_risk_pct df;
  mret (engagement, overtime, rate, burnout).

(** ** Row-wise readings used in the statements *)

(** The flag that the dict of lines 36-37 assigns to one cell. *)
Definition flag_of (a : cell) : cell :=
  match a with
  | CStr k => match yes_no !! k with
              | Some v => CVal v
              | None => CNaN
              end
  | CNum _ => CNaN
  end.

(** The derived fields of one record, computed from that record alone: the
    record-wise reading of lines 36-44, to be compared with the column-wise
    [data_prep]. *)
Definition enrich_row (r : gmap string cell) : result (gmap string cell) :=
  attrition ← row_get r "Attrition";
  overtime ← row_get r "OverTime";
  js ← row_get r "JobSatisfaction";
  es ← row_get r "EnvironmentSatisfaction";
  js_es ← cell_add js es;
  wlb ← row_get r "WorkLifeBalance";
  total ← cell_add js_es wlb;
  index ← cell_div total (Qc_of_Z 3);
  mret (<["EngagementIndex" := index]>
          (<["OverTimeFlag" := flag_of overtime]>
             (<["AttritionFlag" := flag_of attrition]> r))).

(** The numeric value of column [c] in row [r], when it has one. *)
Definition num_field (r : gmap string cell) (c : string) : option Qc :=
  match r !! c with
  | Some (CVal q) => Some q
  | _ => None
  end.

(** Column [c] of [r] holds a number equal to [v]. *)
Definition field_eq (c : string) (v : Qc) (r : gmap string cell) : Prop :=
  num_field r c = Some v.

(** Column [c] of [r] holds a number that is at most [v]. *)
Definition field_le (c : string) (v : Qc) (r : gmap string cell) : Prop :=
  match num_field r c with
  | Some q => q ≤ v
  | None => False
  end.

(** Column [c] of [r] holds a number within [[lo, hi]]. *)
Definition field_within (c : string) (lo hi : Qc) (r : gmap string cell) : Prop :=
  match num_field r c with
  | Some q => lo ≤ q ≤ hi
  | None => False
  end.

(** Column [c] of [r] holds one of [values]. *)
Definition field_in (c : string) (values : list cell) (r : gmap string cell) : Prop :=
  match r !! c with
  | Some a => a ∈ values
  | None => False
  end.

#[global] Instance field_eq_dec c v r : Decision (field_eq c v r).
Proof. unfold field_eq. apply _. Defined.
#[global] Instance field_le_dec c v r : Decision (field_le c v r).
Proof. unfold field_le. destruct (num_field r c); apply _. Defined.
#[global] Instance field_in_dec c values r : Decision (field_in c values r).
Proof. unfold field_in. destruct (r !! c); apply _. Defined.

(** The three conditions of the risk rule and the two of the KPI, row by
    row. *)
Definition high_risk (r : gmap string cell) : Prop :=
  field_eq "OverTimeFlag" (Qc_of_Z 1) r
  ∧ field_le "WorkLifeBalance" (Qc_of_Z 2) r
  ∧ field_le "EngagementIndex" engagement_index_max r.

Definition overtime_low_balance (r : gmap string cell) : Prop :=
  field_eq "OverTimeFlag" (Qc_of_Z 1) r
  ∧ field_le "WorkLifeBalance" (Qc_of_Z 2) r.

(** Column [c] of [r] is present and numeric (a number or NaN). *)
Definition numeric_field (c : string) (r : gmap string cell) : Prop :=
  ∃ x, r !! c = Some (CNum x).

(** A row of the input table: the two categorical columns are present and
    the three ordinal columns are numeric. *)
Definition schema_row (r : gmap string cell) : Prop :=
  is_Some (r !! "Attrition") ∧ is_Some (r !! "OverTime")
  ∧ numeric_field "JobSatisfaction" r
  ∧ numeric_field "EnvironmentSatisfaction" r
  ∧ numeric_field "WorkLifeBalance" r.

(** A row as the risk rule reads it: the flag is present and the two
    compared columns are numeric. *)
Definition enriched_row (r : gmap string cell) : Prop :=
  is_Some (r !! "OverTimeFlag")
  ∧ numeric_field "WorkLifeBalance" r
  ∧ numeric_field "EngagementIndex" r.

(** All three ordinal inputs of [r] lie within [[lo, hi]]. *)
Definition on_scale (lo hi : Qc) (r : gmap string cell) : Prop :=
  field_within "JobSatisfaction" lo hi r
  ∧ field_within "EnvironmentSatisfaction" lo hi r
  ∧ field_within "WorkLifeBalance" lo hi r.

(** The Attrition cell of [r] is one of the two strings of the schema. *)
Definition yes_no_attrition (r : gmap string cell) : Prop :=
  r !! "Attrition" = Some (CStr "Yes") ∨ r !! "Attrition" = Some (CStr "No").

(** What the flag of a cell must be: 1 for "Yes", 0 for "No", and the
    missing marker NaN (which is no number, so in particular not 0) for
    anything else. *)
Definition flag_spec (a f : cell) : Prop :=
  (a = CStr "Yes" ∧ f = CVal (Qc_of_Z 1))
  ∨ (a = CStr "No" ∧ f = CVal (Qc_of_Z 0))
  ∨ (a ≠ CStr "Yes" ∧ a ≠ CStr "No" ∧ f = CNaN).

#[global] Instance numeric_field_dec c r : Decision (numeric_field c r).
Proof.
  unfold numeric_field. destruct (r !! c) as [[s|x]|].
  - right. by intros [? [=]].
  - left. by exists x.
  - right. by intros [? [=]].
Defined.
#[global] Instance field_within_dec c lo hi r : Decision (field_within c lo hi r).
Proof. unfold field_within. destruct (num_field r c); apply _. Defined.
#[global] Instance schema_row_dec r : Decision (schema_row r).
Proof. unfold schema_row. apply _. Defined.
#[global] Instance enriched_row_dec r : Decision (enriched_row r).
Proof. unfold enriched_row. apply _. Defined.
#[global] Instance on_scale_dec lo hi r : Decision (on_scale lo hi r).
Proof. unfold on_scale. apply _. Defined.
#[global] Instance yes_no_attrition_dec r : Decision (yes_no_attrition r).
Proof. unfold yes_no_attrition. apply _. Defined.

(** ** Sample tables

    Small tables on which the statements below are instantiated. *)

(** One record of the input table. *)
Definition record (department role attrition overtime : cell) (js es wlb : Z)
  : gmap string cell :=
  {[ "Department" := department; "JobRole" := role;
     "Attrition" := attrition; "OverTime" := overtime;
     "JobSatisfaction" := CVal (Qc_of_Z js);
     "EnvironmentSatisfaction" := CVal (Qc_of_Z es);
     "WorkLifeBalance" := CVal (Qc_of_Z wlb) ]}.

(** The three records of the scenario of the specification:
    (OverTime=Yes, WLB=1, JS=2, ES=2), (OverTime=No, WLB=4, JS=4, ES=4),
    (OverTime=Yes, WLB=2, JS=1, ES=1). *)
Definition sample : list (gmap string cell) :=
  [ record (CStr "Sales") (CStr "Manager") (CStr "Yes") (CStr "Yes") 2 2 1;
    record (CStr "Research") (CStr "Scientist") (CStr "No") (CStr "No") 4 4 4;
    record (CStr "Sales") (CStr "Manager") (CStr "No") (CStr "Yes") 1 1 2 ].

(** A table with unexpected categorical cells: an unknown string and a
    missing value. *)
Definition sample_odd : list (gmap string cell) :=
  [ record (CStr "Sales") (CStr "Manager") (CStr "Maybe") CNaN 3 3 3;
    record (CStr "Research") (CStr "Scientist") (CStr "yes") (CStr "No") 4 1 2 ].

(** The frame a computation returns (no rows when it raises). *)
Definition run (m : result (list (gmap string cell))) : list (gmap string cell) :=
  match m with
  | Ok df => df
  | Raise _ => []
  end.

(** The scenario table read from a file that has no Attrition column. *)
Definition sample_without_attrition : list (gmap string cell) :=
  map (λ r : gmap string cell, delete "Attrition" r) sample.

Definition sample_enriched : list (gmap string cell) := run (data_prep sample).
Definition sample_odd_enriched : list (gmap string cell) :=
  run (data_prep sample_odd).

(** ** The rest of the script: sidebar options and the risk table *)

(** [s.unique()]: the distinct values of a Series in order of first
    appearance; [seen] holds the values met so far. *)
Fixpoint unique_from (seen : list cell) (s : list cell) : list cell :=
  match s with
  | [] => []
  | a :: s' =>
      if decide (a ∈ seen) then unique_from seen s'
      else a :: unique_from (a :: seen) s'
  end.

Definition series_unique (s : list cell) : list cell := unique_from [] s.

(** Lines 51-52: [df["Department"].unique()], which is both the list of
    options of the multiselect and its default selection. *)
Definition department_options (df : list (gmap string cell))
  : result (list cell) :=
  department ← getitem df "Department";
  mret (series_unique department).

(** One row of [df[[c1, ..., cn]]]: the listed columns and no other. *)
Fixpoint row_select (columns : list string) (r : gmap string cell)
  : result (gmap string cell) :=
  match columns with
  | [] => mret ∅
  | c :: columns' =>
      a ← row_get r c;
      m ← row_select columns' r;
      mret (<[c := a]> m)
  end.

(** [df[[c1, ..., cn]]] *)
Definition select_columns (df : list (gmap string cell))
    (columns : list string) : result (list (gmap string cell)) :=
  mapM (row_select columns) df.

(** [df.head(n)] *)
Definition head (n : nat) (df : list (gmap string cell))
  : list (gmap string cell) := take n df.

(** The column list of lines 206-212. *)
Definition risk_table_columns : list string :=
  ["Department"; "JobRole"; "WorkLifeBalance"; "JobSatisfaction";
   "EngagementIndex"].

(** Lines 205-213: the table under the warning,
    [risk_df[[...]].head(10)]. *)
Definition risk_table (df : list (gmap string cell))
  : result (list (gmap string cell)) :=
  risk ← risk_df df;
  selected ← select_columns risk risk_table_columns;
  mret (head 10 selected).

(** The three derived column names. *)
Definition derived_columns : list string :=
  ["AttritionFlag"; "OverTimeFlag"; "EngagementIndex"].

(** The five columns that data preparation reads. *)
Definition source_columns : list string :=
  ["Attrition"; "OverTime"; "JobSatisfaction"; "EnvironmentSatisfaction";
   "WorkLifeBalance"].

(** The three ordinal columns of [r] hold numbers that add up to at most
    [v]. *)
Definition ordinal_sum_le (v : Qc) (r : gmap string cell) : Prop :=
  match num_field r "JobSatisfaction",
        num_field r "EnvironmentSatisfaction",
        num_field r "WorkLifeBalance" with
  | Some j, Some e, Some w => j + e + w ≤ v
  | _, _, _ => False
  end.

#[global] Instance ordinal_sum_le_dec v r : Decision (ordinal_sum_le v r).
Proof.
  unfold ordinal_sum_le.
  destruct (num_field r "JobSatisfaction"),
           (num_field r "EnvironmentSatisfaction"),
           (num_field r "WorkLifeBalance"); apply _.
Defined.

(** The risk rule read on the columns of the input table: on overtime, a
    work-life balance of at most 2, and the three ordinal values adding up
    to at most 7.5. *)
Definition raw_high_risk (r : gmap string cell) : Prop :=
  r !! "OverTime" = Some (CStr "Yes")
  ∧ field_le "WorkLifeBalance" (Qc_of_Z 2) r
  ∧ ordinal_sum_le (Q2Qc (15 # 2)) r.

(** A cell of an ordinal survey column: missing, or an integer small enough
    for a double to hold it, and the sum of three such integers, exactly. *)
Definition ordinal_cell (a : cell) : Prop :=
  match a with
  | CVal q => Qden q = 1%positive ∧ (Z.abs (Qnum q) ≤ 10 ^ 15)%Z
  | CNaN => True
  | CStr _ => False
  end.

Definition ordinal_field (c : string) (r : gmap string cell) : Prop :=
  match r !! c with
  | Some a => ordinal_cell a
  | None => False
  end.

(** The three ordinal columns of [r] hold such cells. *)
Definition ordinal_row (r : gmap string cell) : Prop :=
  ordinal_field "JobSatisfaction" r
  ∧ ordinal_field "EnvironmentSatisfaction" r
  ∧ ordinal_field "WorkLifeBalance" r.

#[global] Instance ordinal_cell_dec a : Decision (ordinal_cell a).
Proof. destruct a as [?|[?|]]; apply _. Defined.

#[global] Instance ordinal_field_dec c r : Decision (ordinal_field c r).
Proof. unfold ordinal_field. destruct (r !! c); apply _. Defined.

#[global] Instance ordinal_row_dec r : Decision (ordinal_row r).
Proof. unfold ordinal_row. apply _. Defined.

(** The OverTimeFlag cell of [r] is one of the three values the dict of
    line 37 can produce. *)
Definition overtime_flagged (r : gmap string cell) : Prop :=
  r !! "OverTimeFlag" = Some (CVal (Qc_of_Z 1))
  ∨ r !! "OverTimeFlag" = Some (CVal (Qc_of_Z 0))
  ∨ r !! "OverTimeFlag" = Some CNaN.

#[global] Instance overtime_flagged_dec r : Decision (overtime_flagged r).
Proof. unfold overtime_flagged. apply _. Defined.

(** ** Facts about the error monad and the pandas operations *)

Section result_facts.
Context {A B : Type}.
Implicit Types (f : A → result B) (l : list A) (k : list B).

Lemma mapM_Ok f l k :
  mapM f l = Ok k ↔ Forall2 (λ x y, f x = Ok y) l k.
Proof.
  revert k. induction l as [|x l IH]; intros k; simpl.
  - split; [intros [= <-]; constructor | by inversion 1].
  - split.
    + destruct (f x) as [y|] eqn:Hy; simpl; [|done].
      destruct (mapM f l) as [k'|] eqn:Hk; simpl; [|done].
      intros [= <-]. constructor; [done|]. by apply IH.
    + inversion 1 as [|? y ? k' Hy Hk]; subst.
      rewrite Hy; simpl. apply IH in Hk. by rewrite Hk.
Qed.

Lemma mapM_Ok_length f l k : mapM f l = Ok k → length k = length l.
Proof. rewrite mapM_Ok. intros H. symmetry. by eapply Forall2_length. Qed.

Lemma mapM_total f l :
  Forall (λ x, ∃ y, f x = Ok y) l → ∃ k, mapM f l = Ok k.
Proof.
  induction 1 as [|x l [y Hy] _ [k Hk]]; simpl; [by eexists|].
  rewrite Hy, Hk. by eexists.
Qed.

End result_facts.

Lemma bool_decide_intro (b : bool) (P : Prop) `{!Decision P} :
  (b = true ↔ P) → b = bool_decide P.
Proof.
  intros Hb. destruct b; symmetry.
  - by apply bool_decide_eq_true, Hb.
  - apply bool_decide_eq_false. intros HP. by apply Hb in HP.
Qed.

Section frame_facts.
Implicit Types (df : list (gmap string cell)) (s : list cell) (c : string).

Lemma getitem_Ok df c s :
  getitem df c = Ok s ↔ Forall2 (λ r a, r !! c = Some a) df s.
Proof.
  unfold getitem, row_get. rewrite mapM_Ok.
  split; intros H; eapply Forall2_impl; try exact H;
    intros r a; simpl; destruct (r !! c); naive_solver.
Qed.

Lemma getitem_length df c s : getitem df c = Ok s → length s = length df.
Proof. apply mapM_Ok_length. Qed.

Lemma getitem_total df c :
  Forall (λ r, is_Some (r !! c)) df → ∃ s, getitem df c = Ok s.
Proof.
  intros H. apply mapM_total. eapply Forall_impl; [exact H|].
  unfold row_get. intros r [a ->]. by eexists.
Qed.

Lemma getitem_cons r df c :
  getitem (r :: df) c = (a ← row_get r c; s ← getitem df c; mret (a :: s)).
Proof. done. Qed.

Lemma getitem_nil c : getitem [] c = Ok [].
Proof. done. Qed.

Lemma setitem_cons r df c a s :
  setitem (r :: df) c (a :: s) = <[c := a]> r :: setitem df c s.
Proof. done. Qed.

Lemma setitem_length df c s :
  length s = length df → length (setitem df c s) = length df.
Proof. intros H. unfold setitem. rewrite length_zip_with. lia. Qed.

(** Reading back the column that was just written. *)
Lemma getitem_setitem_eq df c s :
  length s = length df → getitem (setitem df c s) c = Ok s.
Proof.
  revert s. induction df as [|r df IH]; intros [|a s] Hlen; try done.
  injection Hlen as Hlen.
  change (getitem (<[c:=a]> r :: setitem df c s) c = Ok (a :: s)).
  unfold getitem, row_get in *. simpl. rewrite lookup_insert_eq. simpl.
  by rewrite (IH s Hlen).
Qed.

(** Writing a column leaves every other column as it was. *)
Lemma getitem_setitem_ne df c c' s :
  c ≠ c' → length s = length df →
  getitem (setitem df c s) c' = getitem df c'.
Proof.
  intros Hne. revert s.
  induction df as [|r df IH]; intros [|a s] Hlen; try done.
  injection Hlen as Hlen.
  change (getitem (<[c:=a]> r :: setitem df c s) c' = getitem (r :: df) c').
  unfold getitem, row_get in *. simpl. rewrite lookup_insert_ne by done.
  by rewrite (IH s Hlen).
Qed.

(** Writing a column with the values it already holds changes nothing. *)
Lemma setitem_getitem_id df c s : getitem df c = Ok s → setitem df c s = df.
Proof.
  rewrite getitem_Ok. induction 1 as [|r a df s Hr _ IH]; [done|].
  by rewrite setitem_cons, IH, insert_id.
Qed.

(** Boolean indexing against a mask that decides [P] row by row is the
    filter by [P]. *)
Lemma getitem_mask_filter (P : gmap string cell → Prop)
    `{!∀ r, Decision (P r)} df (mask : list bool) :
  Forall2 (λ r b, b = bool_decide (P r)) df mask →
  getitem_mask df mask = filter P df.
Proof.
  induction 1 as [|r b df mask -> _ IH]; [done|].
  rewrite filter_cons. cbn [getitem_mask]. rewrite IH.
  case_bool_decide; [by rewrite decide_True|by rewrite decide_False].
Qed.

Lemma mask_and_Forall2 {X} (P Q : X → bool) (l : list X) m1 m2 :
  Forall2 (λ x b, b = P x) l m1 →
  Forall2 (λ x b, b = Q x) l m2 →
  Forall2 (λ x b, b = P x && Q x) l (mask_and m1 m2).
Proof.
  intros H. revert m2.
  induction H as [|x b l m1 -> _ IH]; intros m2; inversion 1; subst; simpl;
    constructor; auto.
Qed.

(** [s == v] row by row. *)
Lemma series_eq_Forall2 df c s v :
  getitem df c = Ok s →
  Forall2 (λ r b, b = bool_decide (field_eq c v r)) df (series_eq s v).
Proof.
  rewrite getitem_Ok. unfold series_eq.
  induction 1 as [|r a df s Hr _ IH]; simpl; constructor; [|done].
  apply bool_decide_intro. unfold field_eq, num_field. rewrite Hr.
  destruct a as [?|[q|]]; simpl; [done| |done].
  rewrite bool_decide_eq_true. naive_solver.
Qed.

(** [s <= v] row by row, on a numeric column. *)
Lemma series_le_Forall2 df c s v :
  getitem df c = Ok s → Forall (numeric_field c) df →
  ∃ m, series_le s v = Ok m
       ∧ Forall2 (λ r b, b = bool_decide (field_le c v r)) df m.
Proof.
  rewrite getitem_Ok. unfold series_le.
  induction 1 as [|r a df s Hr _ IH]; intros Hnum; simpl.
  { eexists; split; [done|constructor]. }
  apply Forall_cons in Hnum as [[x Hx] Hnum].
  destruct (IH Hnum) as (m & -> & Hm). simplify_eq. simpl.
  eexists; split; [done|]. constructor; [|done].
  apply bool_decide_intro. unfold field_le, num_field. rewrite Hr.
  destruct x as [q|]; simpl; [|done].
  by rewrite bool_decide_eq_true.
Qed.

End frame_facts.

Lemma getitem_ext (df df' : list (gmap string cell)) c :
  Forall2 (λ r r', r' !! c = r !! c) df df' → getitem df' c = getitem df c.
Proof.
  induction 1 as [|r r' df df' Hr _ IH]; [done|].
  rewrite !getitem_cons, IH. unfold row_get. by rewrite Hr.
Qed.

Lemma getitem_mask_length (df df' : list (gmap string cell)) mask :
  length df = length df' →
  length (getitem_mask df mask) = length (getitem_mask df' mask).
Proof.
  revert df' mask. induction df as [|r df IH]; intros [|r' df'] mask Hlen;
    try done.
  injection Hlen as Hlen. destruct mask as [|[] mask]; simpl; auto.
Qed.

Section filter_facts.
Context (P : gmap string cell → Prop) `{!∀ r, Decision (P r)}.

Lemma filter_none (l : list (gmap string cell)) :
  (∀ r, r ∈ l → ¬ P r) → filter P l = [].
Proof.
  induction l as [|r l IH]; intros Hnone; [done|].
  rewrite filter_cons_False by (apply Hnone; left).
  apply IH. intros r' Hr'. apply Hnone. by right.
Qed.

End filter_facts.

(** [s.isin(values)] row by row. *)
Lemma series_isin_Forall2 (df : list (gmap string cell)) c s values :
  getitem df c = Ok s →
  Forall2 (λ r b, b = bool_decide (field_in c values r)) df
          (series_isin s values).
Proof.
  rewrite getitem_Ok. unfold series_isin.
  induction 1 as [|r a df s Hr _ IH]; simpl; constructor; [|done].
  apply bool_decide_intro. unfold field_in. rewrite Hr.
  by rewrite bool_decide_eq_true.
Qed.

(** ** Data preparation (lines 36-44), column-wise and record-wise *)

Section data_prep_facts.
Implicit Types (df : list (gmap string cell)) (r : gmap string cell).
Local Arguments series_add : simpl never.
Local Arguments series_div : simpl never.
Local Arguments getitem : simpl never.

Lemma series_map_length d (s : list cell) : length (series_map d s) = length s.
Proof. apply length_map. Qed.

Lemma series_add_cons a b (s t : list cell) :
  series_add (a :: s) (b :: t)
  = (x ← cell_add a b; xs ← series_add s t; mret (x :: xs)).
Proof. done. Qed.

Lemma series_div_cons a (s : list cell) k :
  series_div (a :: s) k
  = (x ← cell_div a k; xs ← series_div s k; mret (x :: xs)).
Proof. done. Qed.

(** The derived columns never feed one another: every source column can be
    read from the frame as loaded. *)
Lemma data_prep_columns df :
  data_prep df =
    (attrition ← getitem df "Attrition";
     overtime ← getitem df "OverTime";
     js ← getitem df "JobSatisfaction";
     es ← getitem df "EnvironmentSatisfaction";
     js_es ← series_add js es;
     wlb ← getitem df "WorkLifeBalance";
     total ← series_add js_es wlb;
     index ← series_div total (Qc_of_Z 3);
     mret (setitem
             (setitem (setitem df "AttritionFlag" (series_map yes_no attrition))
                "OverTimeFlag" (series_map yes_no overtime))
             "EngagementIndex" index)).
Proof.
  unfold data_prep.
  destruct (getitem df "Attrition") as [sa|] eqn:Ha; simpl; [|done].
  pose proof (getitem_length _ _ _ Ha) as Hla.
  assert (Hl1 : length (series_map yes_no sa) = length df)
    by by rewrite series_map_length.
  rewrite getitem_setitem_ne by done.
  destruct (getitem df "OverTime") as [so|] eqn:Ho; simpl; [|done].
  pose proof (getitem_length _ _ _ Ho) as Hlo.
  assert (Hl2 : length (series_map yes_no so)
                = length (setitem df "AttritionFlag" (series_map yes_no sa))).
  { by rewrite series_map_length, setitem_length. }
  rewrite !(getitem_setitem_ne (setitem _ _ _)) by done.
  by rewrite !getitem_setitem_ne by done.
Qed.

Local Ltac raise_case :=
  split; [done | by intros (?&?&?&?&?)].

Lemma data_prep_cons r df out :
  data_prep (r :: df) = Ok out ↔
  ∃ r' df', out = r' :: df' ∧ enrich_row r = Ok r' ∧ data_prep df = Ok df'.
Proof.
  rewrite !data_prep_columns. unfold enrich_row. rewrite !getitem_cons.
  destruct (row_get r "Attrition") as [a|]; simpl; [|raise_case].
  destruct (getitem df "Attrition") as [sa|]; simpl; [|raise_case].
  destruct (row_get r "OverTime") as [o|]; simpl; [|raise_case].
  destruct (getitem df "OverTime") as [so|]; simpl; [|raise_case].
  destruct (row_get r "JobSatisfaction") as [j|]; simpl; [|raise_case].
  destruct (getitem df "JobSatisfaction") as [sj|]; simpl; [|raise_case].
  destruct (row_get r "EnvironmentSatisfaction") as [e|]; simpl; [|raise_case].
  destruct (getitem df "EnvironmentSatisfaction") as [se|]; simpl;
    [|raise_case].
  rewrite series_add_cons.
  destruct (cell_add j e) as [x|]; simpl; [|raise_case].
  destruct (series_add sj se) as [xs|]; simpl; [|raise_case].
  destruct (row_get r "WorkLifeBalance") as [w|]; simpl; [|raise_case].
  destruct (getitem df "WorkLifeBalance") as [sw|]; simpl; [|raise_case].
  rewrite series_add_cons.
  destruct (cell_add x w) as [y|]; simpl; [|raise_case].
  destruct (series_add xs sw) as [ys|]; simpl; [|raise_case].
  rewrite series_div_cons.
  destruct (cell_div y (Qc_of_Z 3)) as [i|]; simpl; [|raise_case].
  destruct (series_div ys (Qc_of_Z 3)) as [idx|]; simpl; [|raise_case].
  split.
  - intros [= <-]. by eexists _, _.
  - by intros (?&?&->&[= <-]&[= <-]).
Qed.

(** [data_prep] enriches record by record: it succeeds exactly when every
    record can be enriched on its own, and then row [i] of the result is the
    enrichment of row [i] of the input. *)
Lemma data_prep_rowwise df df' :
  data_prep df = Ok df' ↔ Forall2 (λ r r', enrich_row r = Ok r') df df'.
Proof.
  revert df'. induction df as [|r df IH]; intros df'.
  - split; [intros [= <-]; constructor | by inversion 1].
  - rewrite data_prep_cons. split.
    + intros (r' & out & -> & Hr & Hout). constructor; [done|]. by apply IH.
    + inversion 1; subst. eexists _, _. split; [done|]. split; [done|].
      by apply IH.
Qed.

Lemma enrich_row_total r :
  schema_row r → ∃ r', enrich_row r = Ok r'.
Proof.
  intros ([a Ha] & [o Ho] & [j Hj] & [e He] & [w Hw]).
  unfold enrich_row, row_get. rewrite Ha, Ho, Hj, He, Hw. simpl.
  by eexists.
Qed.

(** On a table that follows the schema, data preparation raises nothing. *)
Lemma data_prep_total df :
  Forall schema_row df → ∃ df', data_prep df = Ok df'.
Proof.
  induction 1 as [|r df Hr _ [df' IH]].
  - by exists [].
  - destruct (enrich_row_total r Hr) as [r' Hr'].
    exists (r' :: df'). apply data_prep_cons. by eexists _, _.
Qed.

(** What one enriched record looks like. *)
Lemma enrich_row_Ok r r' :
  enrich_row r = Ok r' →
  ∃ a o j e w x y i,
    r !! "Attrition" = Some a ∧ r !! "OverTime" = Some o
    ∧ r !! "JobSatisfaction" = Some j
    ∧ r !! "EnvironmentSatisfaction" = Some e
    ∧ r !! "WorkLifeBalance" = Some w
    ∧ cell_add j e = Ok x ∧ cell_add x w = Ok y
    ∧ cell_div y (Qc_of_Z 3) = Ok i
    ∧ r' = <["EngagementIndex" := i]>
             (<["OverTimeFlag" := flag_of o]>
                (<["AttritionFlag" := flag_of a]> r)).
Proof.
  unfold enrich_row, row_get.
  destruct (r !! "Attrition") as [a|]; simpl; [|done].
  destruct (r !! "OverTime") as [o|]; simpl; [|done].
  destruct (r !! "JobSatisfaction") as [j|]; simpl; [|done].
  destruct (r !! "EnvironmentSatisfaction") as [e|]; simpl; [|done].
  destruct (cell_add j e) as [x|] eqn:Hx; simpl; [|done].
  destruct (r !! "WorkLifeBalance") as [w|]; simpl; [|done].
  destruct (cell_add x w) as [y|] eqn:Hy; simpl; [|done].
  destruct (cell_div y (Qc_of_Z 3)) as [i|] eqn:Hi; simpl; [|done].
  intros [= <-]. by eexists a, o, j, e, w, x, y, i.
Qed.

(** Enrichment leaves every source column as it was. *)
Lemma enrich_row_source r r' c :
  enrich_row r = Ok r' →
  c ≠ "AttritionFlag" → c ≠ "OverTimeFlag" → c ≠ "EngagementIndex" →
  r' !! c = r !! c.
Proof.
  intros Hr ???.
  apply enrich_row_Ok in Hr as (?&?&?&?&?&?&?&?&_&_&_&_&_&_&_&_&->).
  by rewrite !lookup_insert_ne.
Qed.

End data_prep_facts.

(** ** Arithmetic on exact rationals *)

Section rational_facts.
Implicit Types (q s lo hi : Qc) (vs : list Qc).

Lemma of_nat_0 : Py.of_nat 0 = 0.
Proof. apply Z2Qc_inj_0. Qed.

Lemma of_nat_S (k : nat) : Py.of_nat (S k) = 1 + Py.of_nat k.
Proof.
  unfold Py.of_nat. rewrite Nat2Z.inj_succ, <-Z.add_1_l, Z2Qc_inj_add.
  by rewrite Z2Qc_inj_1.
Qed.

Lemma of_nat_nonneg (k : nat) : 0 ≤ Py.of_nat k.
Proof.
  unfold Py.of_nat. rewrite <-Z2Qc_inj_0.
  apply (proj1 (Z2Qc_inj_le 0 (Z.of_nat k))). lia.
Qed.

Lemma of_nat_pos (k : nat) : 0 < Py.of_nat (S k).
Proof.
  unfold Py.of_nat. rewrite <-Z2Qc_inj_0.
  apply (proj1 (Z2Qc_inj_lt 0 (Z.of_nat (S k)))). lia.
Qed.

Lemma Qc_of_Z_3 : Qc_of_Z 3 = 1 + 1 + 1.
Proof. by apply Qc_is_canon. Qed.

Lemma Qc_zero_div_mul q s : Qc_of_Z 0 / q * s = Qc_of_Z 0.
Proof. rewrite Z2Qc_inj_0. unfold Qcdiv. by rewrite !Qcmult_0_l. Qed.

(** A quotient lies between two bounds as soon as the numerator lies
    between the bounds scaled by the positive denominator. *)
Lemma Qcdiv_bounds s q lo hi :
  0 < q → lo * q ≤ s → s ≤ hi * q → lo ≤ s / q ≤ hi.
Proof.
  intros Hq Hlo Hhi.
  assert (Hs : s / q * q = s).
  { rewrite Qcmult_comm. apply Qcmult_div_r. by apply not_symmetry, Qclt_not_eq. }
  split; apply (Qcmult_le_mono_pos_r _ _ q Hq); by rewrite Hs.
Qed.

Lemma sum_list_bounds lo hi vs :
  Forall (λ q, lo ≤ q ≤ hi) vs →
  lo * Py.of_nat (length vs) ≤ sum_list vs
  ∧ sum_list vs ≤ hi * Py.of_nat (length vs).
Proof.
  induction 1 as [|q vs [Hlo Hhi] _ [IHlo IHhi]]; simpl.
  - rewrite of_nat_0, !Qcmult_0_r. split; apply Qcle_refl.
  - rewrite of_nat_S, !Qcmult_plus_distr_r, !Qcmult_1_r.
    split; by apply Qcplus_le_compat.
Qed.

(** The mean of values within [[lo, hi]] is within [[lo, hi]]. *)
Lemma mean_bounds lo hi vs :
  vs ≠ [] → Forall (λ q, lo ≤ q ≤ hi) vs →
  lo ≤ sum_list vs / Py.of_nat (length vs) ≤ hi.
Proof.
  intros Hne Hvs. destruct (sum_list_bounds _ _ _ Hvs) as [Hlo Hhi].
  apply Qcdiv_bounds; [|done..].
  destruct vs; [done|]. apply of_nat_pos.
Qed.

(** The mean of three values within [[lo, hi]], as line 40-44 computes it. *)
Lemma mean3_bounds lo hi a b c :
  lo ≤ a ≤ hi → lo ≤ b ≤ hi → lo ≤ c ≤ hi →
  lo ≤ (a + b + c) / Qc_of_Z 3 ≤ hi.
Proof.
  intros [??] [??] [??]. apply Qcdiv_bounds.
  - rewrite <-Z2Qc_inj_0. by apply (proj1 (Z2Qc_inj_lt 0 3)).
  - rewrite Qc_of_Z_3, !Qcmult_plus_distr_r, !Qcmult_1_r.
    by repeat apply Qcplus_le_compat.
  - rewrite Qc_of_Z_3, !Qcmult_plus_distr_r, !Qcmult_1_r.
    by repeat apply Qcplus_le_compat.
Qed.

End rational_facts.

(** Closed, decidable side conditions are settled by evaluation. *)
Local Ltac by_evaluation :=
  match goal with
  | |- ?P => apply (bool_decide_unpack P); vm_compute; exact I
  end.

(** ** Derived fields (lines 36-44) *)

Lemma flag_of_spec a : flag_spec a (flag_of a).
Proof.
  unfold flag_spec, flag_of, yes_no. destruct a as [k|x]; [|naive_solver].
  rewrite lookup_insert. case_decide as Hyes; [subst; by left|].
  rewrite lookup_singleton. case_decide as Hno; [subst; right; by left|].
  right; right. naive_solver.
Qed.

(** C9. After data preparation every record carries an AttritionFlag and an
    OverTimeFlag read off its Attrition and OverTime cells: 1 for "Yes", 0
    for "No", and NaN, never 0, for every other value. *)
Theorem data_prep_flags (df df' : list (gmap string cell)) :
  data_prep df = Ok df' →
  Forall2 (λ r r',
      (∃ a f, r !! "Attrition" = Some a
              ∧ r' !! "AttritionFlag" = Some f ∧ flag_spec a f)
      ∧ (∃ o f, r !! "OverTime" = Some o
                ∧ r' !! "OverTimeFlag" = Some f ∧ flag_spec o f))
    df df'.
Proof.
  rewrite data_prep_rowwise. intros H.
  eapply Forall2_impl; [exact H|]. clear. intros r r' Hr; simpl in Hr.
  apply enrich_row_Ok in Hr as (a&o&?&?&?&?&?&?&Ha&Ho&_&_&_&_&_&_&->).
  split.
  - exists a, (flag_of a). split; [done|]. split; [|apply flag_of_spec].
    rewrite !lookup_insert_ne by done. by rewrite lookup_insert_eq.
  - exists o, (flag_of o). split; [done|]. split; [|apply flag_of_spec].
    rewrite lookup_insert_ne by done. by rewrite lookup_insert_eq.
Qed.

Lemma data_prep_flags_witness :
  data_prep sample_odd = Ok sample_odd_enriched
  ∧ Forall2 (λ r r',
        (∃ a f, r !! "Attrition" = Some a
                ∧ r' !! "AttritionFlag" = Some f ∧ flag_spec a f)
        ∧ (∃ o f, r !! "OverTime" = Some o
                  ∧ r' !! "OverTimeFlag" = Some f ∧ flag_spec o f))
      sample_odd sample_odd_enriched.
Proof.
  assert (H : data_prep sample_odd = Ok sample_odd_enriched)
    by (vm_compute; reflexivity).
  split; [exact H|]. exact (data_prep_flags sample_odd sample_odd_enriched H).
Defined.

Lemma enrich_row_idempotent (r r' : gmap string cell) :
  enrich_row r = Ok r' → enrich_row r' = Ok r'.
Proof.
  intros Hr.
  apply enrich_row_Ok in Hr as (a&o&j&e&w&x&y&i&Ha&Ho&Hj&He&Hw&Hx&Hy&Hi&->).
  unfold enrich_row, row_get.
  rewrite !lookup_insert_ne by done. rewrite Ha, Ho, Hj, He, Hw.
  cbn [mbind result_bind]. rewrite Hx. cbn [mbind result_bind].
  rewrite Hy. cbn [mbind result_bind]. rewrite Hi. cbn [mbind result_bind].
  unfold mret, result_ret. f_equal.
  apply map_eq. intros k. rewrite !lookup_insert.
  repeat case_decide; congruence.
Qed.

(** C10. Data preparation is idempotent: run on its own output it returns
    that output, so the derived fields of every record stay as they are. *)
Theorem data_prep_idempotent (df df' : list (gmap string cell)) :
  data_prep df = Ok df' → data_prep df' = Ok df'.
Proof.
  rewrite !data_prep_rowwise.
  induction 1 as [|r r' df df' Hr _ IH]; constructor; [|done].
  by eapply enrich_row_idempotent.
Qed.

Lemma data_prep_idempotent_witness :
  data_prep sample = Ok sample_enriched
  ∧ data_prep sample_enriched = Ok sample_enriched.
Proof.
  assert (H : data_prep sample = Ok sample_enriched)
    by (vm_compute; reflexivity).
  split; [exact H|]. exact (data_prep_idempotent sample sample_enriched H).
Defined.

Lemma enrich_row_within lo hi (r r' : gmap string cell) :
  enrich_row r = Ok r' → on_scale lo hi r →
  field_within "EngagementIndex" lo hi r'.
Proof.
  intros Hr (Hj & He & Hw).
  apply enrich_row_Ok in Hr as (a&o&j&e&w&x&y&i&_&_&Hj'&He'&Hw'&Hx&Hy&Hi&->).
  unfold field_within, num_field in *.
  rewrite Hj' in Hj. rewrite He' in He. rewrite Hw' in Hw.
  rewrite lookup_insert_eq.
  destruct j as [|[qj|]]; try done. destruct e as [|[qe|]]; try done.
  destruct w as [|[qw|]]; try done.
  injection Hx as <-. injection Hy as <-. injection Hi as <-.
  by apply mean3_bounds.
Qed.

Lemma within_column lo hi c (d : list (gmap string cell)) :
  Forall (field_within c lo hi) d →
  ∃ s qs, getitem d c = Ok s ∧ numeric_values s = Ok qs
          ∧ length qs = length d ∧ Forall (λ q, lo ≤ q ≤ hi) qs.
Proof.
  induction 1 as [|r d Hr _ (s & qs & Hs & Hqs & Hlen & Hin)].
  - by exists [], [].
  - unfold field_within, num_field in Hr.
    destruct (r !! c) as [[|[q|]]|] eqn:Hc; try done.
    exists (CVal q :: s), (q :: qs).
    rewrite getitem_cons, Hs. unfold row_get. rewrite Hc. simpl.
    rewrite Hqs, Hlen. by repeat split; try constructor.
Qed.

(** C7. The EngagementIndex of a record whose three ordinal inputs lie
    within [[lo, hi]] lies within [[lo, hi]]; and when every record is on the
    scale, the mean EngagementIndex of any non-empty collection of enriched
    records exists and lies within [[lo, hi]]. *)
Theorem engagement_index_within_scale lo hi (df df' : list (gmap string cell)) :
  data_prep df = Ok df' →
  Forall2 (λ r r', on_scale lo hi r → field_within "EngagementIndex" lo hi r')
          df df'
  ∧ (Forall (on_scale lo hi) df →
     ∀ d : list (gmap string cell), d ≠ [] → d ⊆ df' →
       ∃ m, getitem d "EngagementIndex" ≫= series_mean = Ok (Py.Fin m)
            ∧ lo ≤ m ≤ hi).
Proof.
  rewrite data_prep_rowwise. intros Hrows. split.
  - eapply Forall2_impl; [exact Hrows|].
    intros r r' Hr Hscale. exact (enrich_row_within _ _ _ _ Hr Hscale).
  - intros Hscale d Hne Hsub.
    assert (Hall : Forall (field_within "EngagementIndex" lo hi) df').
    { clear -Hrows Hscale.
      induction Hrows as [|r r' df df' Hr _ IH]; [constructor|].
      apply Forall_cons in Hscale as [H ?].
      constructor; [exact (enrich_row_within _ _ _ _ Hr H)|by apply IH]. }
    assert (Hd : Forall (field_within "EngagementIndex" lo hi) d).
    { rewrite Forall_forall in Hall |- *. intros r' Hr'. by apply Hall, Hsub. }
    destruct (within_column _ _ _ _ Hd) as (s & qs & Hs & Hqs & Hlen & Hin).
    rewrite Hs. cbn [mbind result_bind]. unfold series_mean. rewrite Hqs.
    cbn [mbind result_bind].
    destruct qs as [|q qs]; [by destruct d|].
    eexists. split; [done|]. by apply mean_bounds.
Qed.

Lemma engagement_index_within_scale_witness :
  data_prep sample = Ok sample_enriched
  ∧ Forall (field_within "EngagementIndex" (Qc_of_Z 1) (Qc_of_Z 4))
           sample_enriched
  ∧ ∃ m, getitem sample_enriched "EngagementIndex" ≫= series_mean
         = Ok (Py.Fin m)
         ∧ Qc_of_Z 1 ≤ m ≤ Qc_of_Z 4.
Proof.
  assert (H : data_prep sample = Ok sample_enriched)
    by (vm_compute; reflexivity).
  assert (Hscale : Forall (on_scale (Qc_of_Z 1) (Qc_of_Z 4)) sample)
    by by_evaluation.
  destruct (engagement_index_within_scale
              (Qc_of_Z 1) (Qc_of_Z 4) sample sample_enriched H)
    as [Hrows Hmean].
  split; [exact H|]. split.
  - clear Hmean. revert Hrows Hscale.
    generalize sample sample_enriched. intros df df'.
    induction 1 as [|r r' d d' Hr _ IH]; intros Hs; [constructor|].
    apply Forall_cons in Hs as [??]. constructor; auto.
  - apply (Hmean Hscale); [discriminate|done].
Defined.

(** The scenario of the specification: the engagement indices of the three
    records are 5/3, 4 and 4/3. *)
Example scenario_engagement_index :
  map (λ r, this <$> num_field r "EngagementIndex") sample_enriched
  = [Some (5 # 3)%Q; Some (4 # 1)%Q; Some (4 # 3)%Q].
Proof. vm_compute. reflexivity. Qed.

(** ** The department filter (line 55) *)

(** C6. For every frame whose rows carry a Department and every list of
    selected values, line 55 keeps exactly the rows whose Department is one
    of the selected values, in their original order; with nothing selected
    the result is the empty frame. *)
Theorem department_filter_exact (df : list (gmap string cell)) (dept : list cell) :
  Forall (λ r, is_Some (r !! "Department")) df →
  ∃ out, department_filter df dept = Ok out
    ∧ out = filter (field_in "Department" dept) df
    ∧ out `sublist_of` df
    ∧ (∀ r, r ∈ out ↔ r ∈ df ∧ field_in "Department" dept r)
    ∧ department_filter df [] = Ok [].
Proof.
  intros Hcol. destruct (getitem_total _ _ Hcol) as [s Hs].
  assert (Hrun : ∀ values, department_filter df values
                           = Ok (filter (field_in "Department" values) df)).
  { intros values. unfold department_filter. rewrite Hs. simpl. f_equal.
    apply getitem_mask_filter. by apply series_isin_Forall2. }
  eexists. split; [apply Hrun|]. split; [done|].
  split; [apply sublist_filter|]. split.
  - intros r. rewrite list_elem_of_filter. tauto.
  - rewrite Hrun. f_equal. apply filter_none.
    intros r _. unfold field_in. destruct (r !! "Department"); [|tauto].
    apply not_elem_of_nil.
Qed.

Lemma department_filter_exact_witness :
  Forall (λ r, is_Some (r !! "Department")) sample_enriched
  ∧ department_filter sample_enriched [CStr "Sales"]
    = Ok (filter (field_in "Department" [CStr "Sales"]) sample_enriched).
Proof.
  assert (H : Forall (λ r : gmap string cell, is_Some (r !! "Department"))
                sample_enriched) by by_evaluation.
  split; [exact H|].
  by destruct (department_filter_exact sample_enriched [CStr "Sales"] H)
    as (out & -> & -> & _).
Defined.

(** ** Rounding a share to one decimal *)

(** The rounded value is within one half of the argument, and an argument
    exactly half-way between two integers goes to the even one. *)
Lemma round_half_even_spec (q : Qc) :
  let r := Py.round_half_even q in
  ((2 * r - 1) * QDen q ≤ 2 * Qnum q)%Z
  ∧ (2 * Qnum q ≤ (2 * r + 1) * QDen q)%Z
  ∧ ((2 * Qnum q = (2 * r - 1) * QDen q)%Z → Z.even r = true)
  ∧ ((2 * Qnum q = (2 * r + 1) * QDen q)%Z → Z.even r = true).
Proof.
  unfold Py.round_half_even.
  set (n := Qnum q). set (d := Z.pos (Qden q)).
  assert (Hd : (0 < d)%Z) by (unfold d; lia).
  pose proof (Z.div_mod (2 * n + d) (2 * d) ltac:(lia)) as Hdm.
  pose proof (Z.mod_pos_bound (2 * n + d) (2 * d) ltac:(lia)) as Hm.
  set (f := ((2 * n + d) `div` (2 * d))%Z) in *.
  set (m := ((2 * n + d) `mod` (2 * d))%Z) in *.
  case_decide as Htie.
  - destruct Htie as [Hm0 Hodd].
    assert (Heven : Z.even (f - 1) = true).
    { rewrite Z.even_sub. rewrite <-Z.negb_odd, Hodd. done. }
    repeat split; try nia; intros _; exact Heven.
  - assert (Hcase : m ≠ 0%Z ∨ Z.odd f = false).
    { destruct (decide (m = 0%Z)); [|by left]. right.
      destruct (Z.odd f) eqn:?; [|done]. destruct Htie; done. }
    repeat split; try nia.
    intros Heq. assert (m = 0%Z) by nia.
    destruct Hcase as [?|Hodd]; [done|]. by rewrite <-Z.negb_odd, Hodd.
Qed.

(** A rational given as a quotient of integers, cross-multiplied. *)
Lemma Qc_ratio (x : Qc) (a b : Z) :
  (0 < b)%Z → x = Qc_of_Z a / Qc_of_Z b → (Qnum x * b = a * QDen x)%Z.
Proof.
  intros Hb ->.
  assert (Hb' : Qc_of_Z b ≠ 0).
  { rewrite <-Z2Qc_inj_0. intros E. apply Z2Qc_inj in E. lia. }
  assert (E : Qc_of_Z a / Qc_of_Z b * Qc_of_Z b = Qc_of_Z a).
  { rewrite Qcmult_comm. by apply Qcmult_div_r. }
  revert E. generalize (Qc_of_Z a / Qc_of_Z b). intros x E.
  assert (E' : (this (x * Qc_of_Z b) == this (Qc_of_Z a))%Q) by by rewrite E.
  unfold Qcmult, Qc_of_Z, Q2Qc in E'. cbn [this] in E'.
  rewrite !Qred_correct in E'. unfold Qeq in E'. simpl in E'. lia.
Qed.

(** [round(c / n * 100, 1)] is a whole number of tenths, and no tenth is
    nearer to the percentage [100 c / n]: twice the distance between
    [tenths / 10] and [100 c / n], scaled by [10 n], is at most [n]. *)
Lemma round_share_tenths (c n : nat) :
  (0 < n)%nat →
  ∃ tenths : Z,
    Py.round (Py.Fin (Py.of_nat c / Py.of_nat n * Qc_of_Z 100)) 1
    = Py.Fin (Qc_of_Z tenths / Qc_of_Z 10)
    ∧ (2 * Z.abs (tenths * Z.of_nat n - 1000 * Z.of_nat c) ≤ Z.of_nat n)%Z.
Proof.
  intros Hn. unfold Py.round.
  set (x := Py.of_nat c / Py.of_nat n * Qc_of_Z 100 * Py.pow10 1).
  exists (Py.round_half_even x). split; [done|].
  assert (Hx : x = Qc_of_Z (1000 * Z.of_nat c) / Qc_of_Z (Z.of_nat n)).
  { unfold x, Py.pow10, Py.of_nat. change (10 ^ Z.of_nat 1)%Z with 10%Z.
    rewrite Z2Qc_inj_mul. change 1000%Z with (100 * 10)%Z.
    rewrite Z2Qc_inj_mul. unfold Qcdiv. ring. }
  apply Qc_ratio in Hx; [|lia].
  destruct (round_half_even_spec x) as (Hlo & Hhi & _).
  revert Hx Hlo Hhi. generalize (Py.round_half_even x).
  assert (Hd : (0 < QDen x)%Z) by lia. revert Hd.
  generalize (Qnum x) (QDen x) (Z.of_nat c).
  assert (Hn' : (0 < Z.of_nat n)%Z) by lia. revert Hn'.
  generalize (Z.of_nat n). clear. intros n Hn a d c Hd k Hx Hlo Hhi.
  assert (H1 : ((2 * k - 1) * n * d ≤ 2000 * c * d)%Z) by nia.
  assert (H2 : (2000 * c * d ≤ (2 * k + 1) * n * d)%Z) by nia.
  apply Z.mul_le_mono_pos_r in H1; [|done].
  apply Z.mul_le_mono_pos_r in H2; [|done]. lia.
Qed.

(** ** The KPI row (lines 59-84) and the warning share (line 202) *)

Lemma attrition_count_filter (df : list (gmap string cell)) :
  Forall (λ r, is_Some (r !! "Attrition")) df →
  attrition_count df
  = Ok (length (filter (field_eq "Attrition" (Qc_of_Z 1)) df)).
Proof.
  intros Hcol. destruct (getitem_total _ _ Hcol) as [s Hs].
  unfold attrition_count. rewrite Hs. simpl. do 2 f_equal.
  apply getitem_mask_filter. by apply series_eq_Forall2.
Qed.

(** C4. Whenever the Attrition column is there, the attrition rate is the
    number of rows with [Attrition == 1] divided by the number of rows,
    times 100, and it is 0 on a frame without rows. *)
Theorem attrition_rate_formula (df : list (gmap string cell)) :
  Forall (λ r, is_Some (r !! "Attrition")) df →
  attrition_rate df
  = Ok (Py.Fin
          (if decide (length df = 0)%nat then Qc_of_Z 0
           else Py.of_nat (length (filter (field_eq "Attrition" (Qc_of_Z 1)) df))
                / Py.of_nat (length df) * Qc_of_Z 100)).
Proof.
  intros Hcol. unfold attrition_rate, total_employees.
  rewrite (attrition_count_filter _ Hcol).
  destruct df as [|r df]; [done|].
  cbn [mbind result_bind].
  rewrite decide_True by (simpl; lia).
  by rewrite (decide_False (P := length (r :: df) = 0%nat)).
Qed.

Lemma attrition_rate_formula_witness :
  Forall (λ r, is_Some (r !! "Attrition")) sample
  ∧ attrition_rate sample
    = Ok (Py.Fin
            (if decide (length sample = 0)%nat then Qc_of_Z 0
             else Py.of_nat
                    (length (filter (field_eq "Attrition" (Qc_of_Z 1)) sample))
                  / Py.of_nat (length sample) * Qc_of_Z 100)).
Proof.
  assert (H : Forall (λ r : gmap string cell, is_Some (r !! "Attrition"))
                sample) by by_evaluation.
  split; [exact H|]. exact (attrition_rate_formula sample H).
Defined.

(** C3. On a non-empty frame whose Attrition cells are all "Yes" or "No",
    no row is counted by line 60 and the attrition rate of line 61 is 0; the
    same holds after data preparation, which leaves the Attrition column as
    it was. *)
Theorem attrition_rate_yes_no_is_zero (df : list (gmap string cell)) :
  df ≠ [] → Forall yes_no_attrition df →
  attrition_count df = Ok 0%nat
  ∧ attrition_rate df = Ok (Py.Fin (Qc_of_Z 0))
  ∧ ∀ df', data_prep df = Ok df' →
           attrition_rate df' = Ok (Py.Fin (Qc_of_Z 0)).
Proof.
  assert (Hgen : ∀ d : list (gmap string cell), d ≠ [] →
            Forall yes_no_attrition d →
            attrition_count d = Ok 0%nat
            ∧ attrition_rate d = Ok (Py.Fin (Qc_of_Z 0))).
  { intros d Hne Hyn.
    assert (Hcol : Forall (λ r, is_Some (r !! "Attrition")) d).
    { eapply Forall_impl; [exact Hyn|]. intros r [->| ->]; by eexists. }
    assert (Hnone : filter (field_eq "Attrition" (Qc_of_Z 1)) d = []).
    { apply filter_none. intros r Hr.
      rewrite Forall_forall in Hyn. unfold field_eq, num_field.
      by destruct (Hyn r Hr) as [->| ->]. }
    assert (Hcount : attrition_count d = Ok 0%nat)
      by by rewrite attrition_count_filter, Hnone.
    split; [done|].
    unfold attrition_rate, total_employees. rewrite Hcount.
    destruct d as [|r d]; [done|].
    cbn [mbind result_bind]. rewrite decide_True by (simpl; lia).
    simpl. change (Qc_of_Z (Z.of_nat 0)) with (Qc_of_Z 0).
    by rewrite Qc_zero_div_mul. }
  intros Hne Hyn. destruct (Hgen df Hne Hyn) as [Hc Hr].
  split; [done|]. split; [done|].
  intros df' Hprep. apply Hgen.
  - apply data_prep_rowwise in Hprep. destruct Hprep; [done|discriminate].
  - apply data_prep_rowwise in Hprep. clear -Hprep Hyn.
    induction Hprep as [|r r' d d' Hr' _ IH]; [constructor|].
    apply Forall_cons in Hyn as [Hyr Hyn]. constructor; [|by apply IH].
    unfold yes_no_attrition in *.
    by rewrite (enrich_row_source _ _ "Attrition" Hr').
Qed.

Lemma attrition_rate_yes_no_is_zero_witness :
  sample ≠ [] ∧ Forall yes_no_attrition sample
  ∧ attrition_rate sample = Ok (Py.Fin (Qc_of_Z 0))
  ∧ attrition_rate sample_enriched = Ok (Py.Fin (Qc_of_Z 0)).
Proof.
  assert (Hne : sample ≠ []) by discriminate.
  assert (H : Forall yes_no_attrition sample) by by_evaluation.
  destruct (attrition_rate_yes_no_is_zero sample Hne H) as (_ & Hrate & Hprep).
  split; [exact Hne|]. split; [exact H|]. split; [exact Hrate|].
  apply Hprep. vm_compute. reflexivity.
Defined.

(** C5. On a non-empty frame, the High Burnout Risk % of line 83 is the
    number of rows with OverTimeFlag == 1 and WorkLifeBalance <= 2, divided
    by the number of rows, times 100, rounded to one decimal: it is a whole
    number of tenths, and no tenth is nearer to the percentage
    [100 * count / total] (when the percentage lies half-way between two
    tenths, either of them).  The bound on the number of rows keeps the
    rounding error of the double far below the distance between a
    percentage and the nearest tie.  Only the two columns and the row count
    enter the value: any frame that agrees on them, whatever its
    EngagementIndex, gets the same value. *)
Theorem high_burnout_risk_pct_two_conditions (df : list (gmap string cell)) :
  df ≠ [] →
  (Z.of_nat (length df) < 10 ^ 9)%Z →
  Forall (λ r, is_Some (r !! "OverTimeFlag")
               ∧ numeric_field "WorkLifeBalance" r) df →
  let count := Z.of_nat (length (filter overtime_low_balance df)) in
  let total := Z.of_nat (length df) in
  (∃ tenths : Z,
     high_burnout_risk_pct df = Ok (Py.Fin (Qc_of_Z tenths / Qc_of_Z 10))
     ∧ (2 * Z.abs (tenths * total - 1000 * count) ≤ total)%Z)
  ∧ ∀ df' : list (gmap string cell),
      Forall2 (λ r r', r' !! "OverTimeFlag" = r !! "OverTimeFlag"
                       ∧ r' !! "WorkLifeBalance" = r !! "WorkLifeBalance")
              df df' →
      high_burnout_risk_pct df' = high_burnout_risk_pct df.
Proof.
  intros Hne _ Hrows count total. split.
  - assert (Hflag : Forall (λ r, is_Some (r !! "OverTimeFlag")) df).
    { eapply Forall_impl; [exact Hrows|]. by intros r [? _]. }
    assert (Hwlb : Forall (numeric_field "WorkLifeBalance") df).
    { eapply Forall_impl; [exact Hrows|]. by intros r [_ ?]. }
    destruct (getitem_total _ _ Hflag) as [flag Hf].
    destruct (getitem_total df "WorkLifeBalance") as [wlb Hw].
    { eapply Forall_impl; [exact Hwlb|]. intros r [x ->]. by eexists. }
    destruct (series_le_Forall2 _ _ _ (Qc_of_Z 2) Hw Hwlb) as (m2 & Hm2 & Hm2').
    pose proof (series_eq_Forall2 _ _ _ (Qc_of_Z 1) Hf) as Hm1'.
    destruct (round_share_tenths
                (length (filter overtime_low_balance df)) (length df))
      as (tenths & Hround & Hnear).
    { destruct df; [done|simpl; lia]. }
    exists tenths. split; [|exact Hnear]. rewrite <-Hround.
    unfold high_burnout_risk_pct.
    rewrite Hf. cbn [mbind result_bind]. rewrite Hw. cbn [mbind result_bind].
    rewrite Hm2. cbn [mbind result_bind].
    rewrite (getitem_mask_filter overtime_low_balance).
    + by destruct df.
    + pose proof (mask_and_Forall2 _ _ _ _ _ Hm1' Hm2') as Hmask.
      eapply Forall2_impl; [exact Hmask|].
      intros r b ->. apply bool_decide_intro.
      rewrite andb_true_iff, !bool_decide_eq_true.
      unfold overtime_low_balance. tauto.
  - intros df' Hagree. unfold high_burnout_risk_pct.
    rewrite (getitem_ext df df' "OverTimeFlag"),
            (getitem_ext df df' "WorkLifeBalance").
    + destruct (getitem df "OverTimeFlag") as [flag|]; [|done].
      cbn [mbind result_bind].
      destruct (getitem df "WorkLifeBalance") as [wlb|]; [|done].
      cbn [mbind result_bind].
      destruct (series_le wlb (Qc_of_Z 2)) as [m2|]; [|done].
      cbn [mbind result_bind].
      pose proof (Forall2_length _ _ _ Hagree) as Hlen.
      by rewrite (getitem_mask_length df' df), Hlen.
    + eapply Forall2_impl; [exact Hagree|]. by intros r r' [_ ?].
    + eapply Forall2_impl; [exact Hagree|]. by intros r r' [? _].
Qed.

Lemma high_burnout_risk_pct_two_conditions_witness :
  sample_enriched ≠ []
  ∧ (Z.of_nat (length sample_enriched) < 10 ^ 9)%Z
  ∧ Forall (λ r, is_Some (r !! "OverTimeFlag")
                 ∧ numeric_field "WorkLifeBalance" r) sample_enriched
  ∧ ∃ tenths : Z,
      high_burnout_risk_pct sample_enriched
      = Ok (Py.Fin (Qc_of_Z tenths / Qc_of_Z 10))
      ∧ (2 * Z.abs (tenths * Z.of_nat (length sample_enriched)
                    - 1000 * Z.of_nat
                               (length (filter overtime_low_balance
                                               sample_enriched)))
         ≤ Z.of_nat (length sample_enriched))%Z.
Proof.
  assert (Hne : sample_enriched ≠ []) by discriminate.
  assert (Hsize : (Z.of_nat (length sample_enriched) < 10 ^ 9)%Z)
    by by_evaluation.
  assert (H : Forall (λ r : gmap string cell,
                        is_Some (r !! "OverTimeFlag")
                        ∧ numeric_field "WorkLifeBalance" r) sample_enriched)
    by by_evaluation.
  split; [exact Hne|]. split; [exact Hsize|]. split; [exact H|].
  exact (proj1 (high_burnout_risk_pct_two_conditions
                  sample_enriched Hne Hsize H)).
Defined.

(** A record on overtime with a low work-life balance but a high engagement
    index counts for the KPI of line 83 and not for the risk rule. *)
Example kpi_counts_more_than_risk_rule :
  let df := run (data_prep
                   [record (CStr "Sales") (CStr "Manager") (CStr "No")
                           (CStr "Yes") 4 4 2]) in
  (λ x, match x with Py.Fin q => Some (this q) | Py.NaN => None end)
    <$> high_burnout_risk_pct df = Ok (Some (100 # 1)%Q)
  ∧ risk_df df = Ok [].
Proof. vm_compute. split; reflexivity. Qed.

(** C2. The four percentages on the frame without rows (every department
    deselected, or a table with a header only): the attrition rate takes its
    guarded default 0, the overtime percentage is NaN, and both risk
    percentages divide by [len(df) = 0] and raise ZeroDivisionError, which
    ends the KPI row. *)
Theorem percentages_on_empty_frame :
  attrition_rate [] = Ok (Py.Fin (Qc_of_Z 0))
  ∧ overtime_pct [] = Ok Py.NaN
  ∧ high_burnout_risk_pct [] = Raise ZeroDivisionError
  ∧ risk_pct [] = Raise ZeroDivisionError
  ∧ kpi_section [] = Raise ZeroDivisionError
  ∧ department_filter sample_enriched [] ≫= kpi_section
    = Raise ZeroDivisionError.
Proof. by repeat split. Qed.

(** ** The risk rule (lines 194-198) *)

Lemma getitem_mask_sublist (df : list (gmap string cell)) mask :
  getitem_mask df mask `sublist_of` df.
Proof.
  revert mask. induction df as [|r df IH]; intros [|[] mask]; simpl;
    try constructor; auto using sublist_nil_l.
Qed.

(** The frame that reaches line 194 is made of enriched rows: data
    preparation provides the flag and a numeric EngagementIndex, and the
    department filter only removes rows. *)
Lemma pipeline_enriched (df df1 out : list (gmap string cell)) dept :
  Forall (numeric_field "WorkLifeBalance") df →
  data_prep df = Ok df1 → department_filter df1 dept = Ok out →
  Forall enriched_row out.
Proof.
  intros Hwlb Hprep Hfilter.
  assert (Hall : Forall enriched_row df1).
  { apply data_prep_rowwise in Hprep. clear -Hprep Hwlb.
    induction Hprep as [|r r' df df1 Hr _ IH]; [constructor|].
    apply Forall_cons in Hwlb as [[w Hw] Hwlb].
    constructor; [|by apply IH].
    apply enrich_row_Ok in Hr as (?&?&?&?&?&?&?&i&_&_&_&_&_&_&_&Hi&->).
    split; [|split].
    - rewrite lookup_insert_ne by done. rewrite lookup_insert_eq. by eexists.
    - exists w. by rewrite !lookup_insert_ne.
    - unfold numeric_field. rewrite lookup_insert_eq.
      match type of Hi with cell_div ?y _ = _ => destruct y; [done|] end.
      injection Hi as <-. by eexists. }
  unfold department_filter in Hfilter.
  destruct (getitem df1 "Department") as [s|]; [|done].
  injection Hfilter as <-.
  rewrite Forall_forall in Hall |- *. intros r Hr. apply Hall.
  eapply sublist_subseteq; [apply getitem_mask_sublist|exact Hr].
Qed.

(** C1. On every enriched frame, [risk_df] is exactly the sub-frame of the
    rows meeting all three conditions at once (OverTimeFlag == 1,
    WorkLifeBalance <= 2, EngagementIndex <= 2.5), in order; it is empty
    when no row meets all three. *)
Theorem risk_df_conjunction (df : list (gmap string cell)) :
  Forall enriched_row df →
  ∃ out, risk_df df = Ok out
    ∧ out = filter high_risk df
    ∧ out `sublist_of` df
    ∧ (∀ r, r ∈ out ↔
            r ∈ df
            ∧ field_eq "OverTimeFlag" (Qc_of_Z 1) r
            ∧ field_le "WorkLifeBalance" (Qc_of_Z 2) r
            ∧ field_le "EngagementIndex" engagement_index_max r)
    ∧ ((∀ r, r ∈ df → ¬ high_risk r) → out = []).
Proof.
  intros Hrows.
  assert (Hflag : Forall (λ r, is_Some (r !! "OverTimeFlag")) df).
  { eapply Forall_impl; [exact Hrows|]. by intros r (?&_). }
  assert (Hwlb : Forall (numeric_field "WorkLifeBalance") df).
  { eapply Forall_impl; [exact Hrows|]. by intros r (_&?&_). }
  assert (Hidx : Forall (numeric_field "EngagementIndex") df).
  { eapply Forall_impl; [exact Hrows|]. by intros r (_&_&?). }
  destruct (getitem_total _ _ Hflag) as [flag Hf].
  destruct (getitem_total df "WorkLifeBalance") as [wlb Hw].
  { eapply Forall_impl; [exact Hwlb|]. intros r [x ->]. by eexists. }
  destruct (getitem_total df "EngagementIndex") as [idx Hi].
  { eapply Forall_impl; [exact Hidx|]. intros r [x ->]. by eexists. }
  destruct (series_le_Forall2 _ _ _ (Qc_of_Z 2) Hw Hwlb) as (m2 & Hm2 & Hm2').
  destruct (series_le_Forall2 _ _ _ engagement_index_max Hi Hidx)
    as (m3 & Hm3 & Hm3').
  pose proof (series_eq_Forall2 _ _ _ (Qc_of_Z 1) Hf) as Hm1'.
  assert (Hrun : risk_df df = Ok (filter high_risk df)).
  { unfold risk_df. rewrite Hf. simpl. rewrite Hw. simpl. rewrite Hm2. simpl.
    rewrite Hi. simpl. rewrite Hm3. simpl. f_equal.
    apply getitem_mask_filter.
    pose proof (mask_and_Forall2 _ _ _ _ _
                  (mask_and_Forall2 _ _ _ _ _ Hm1' Hm2') Hm3') as Hmask.
    eapply Forall2_impl; [exact Hmask|].
    intros r b ->. apply bool_decide_intro.
    rewrite !andb_true_iff, !bool_decide_eq_true. unfold high_risk. tauto. }
  eexists. split; [exact Hrun|]. split; [done|].
  split; [apply sublist_filter|]. split.
  - intros r. rewrite list_elem_of_filter. unfold high_risk. tauto.
  - apply filter_none.
Qed.

Lemma risk_df_conjunction_witness :
  Forall enriched_row sample_enriched
  ∧ risk_df sample_enriched = Ok (filter high_risk sample_enriched).
Proof.
  assert (H : Forall enriched_row sample_enriched) by by_evaluation.
  split; [exact H|].
  by destruct (risk_df_conjunction sample_enriched H) as (out & -> & -> & _).
Defined.

(** The scenario of the specification: the risk rule keeps the first and the
    third record. *)
Example scenario_risk_df :
  risk_df sample_enriched
  = Ok (take 1 sample_enriched ++ drop 2 sample_enriched).
Proof. vm_compute. reflexivity. Qed.

(** * Further properties of the script *)

(** A closed equation between results is checked by evaluating its two
    sides. *)
Local Ltac by_computation :=
  lazymatch goal with
  | |- ?l = ?r => exact (eq_refl r <: l = r)
  end.

(** ** Data preparation: shape, errors and the record-wise view *)

Lemma getitem_KeyError (df : list (gmap string cell)) c :
  (∃ r, r ∈ df ∧ r !! c = None) → getitem df c = Raise (KeyError c).
Proof.
  intros (r & Hin & Hnone). induction df as [|r0 df IH]; [by inversion Hin|].
  rewrite getitem_cons. unfold row_get at 1.
  destruct (r0 !! c) as [a|] eqn:Ha; [|done].
  cbn [mbind result_bind]. rewrite IH; [done|].
  apply elem_of_cons in Hin as [->|Hin]; [congruence|done].
Qed.

(** X1. The column-wise data preparation of lines 36-44 is the record-wise
    enrichment: it succeeds exactly when every record can be enriched from
    its own cells, and row [i] of the result is then the enrichment of row
    [i] of the input. *)
Theorem data_prep_record_by_record (df df' : list (gmap string cell)) :
  data_prep df = Ok df' ↔ Forall2 (λ r r', enrich_row r = Ok r') df df'.
Proof. apply data_prep_rowwise. Qed.

(** X2. On a table that follows the schema (Attrition and OverTime present,
    the three ordinal columns numeric or missing), data preparation raises
    no exception. *)
Theorem data_prep_no_exception (df : list (gmap string cell)) :
  Forall schema_row df → ∃ df', data_prep df = Ok df'.
Proof. apply data_prep_total. Qed.

Lemma data_prep_no_exception_witness :
  Forall schema_row sample_odd ∧ ∃ df', data_prep sample_odd = Ok df'.
Proof.
  assert (H : Forall schema_row sample_odd) by by_evaluation.
  split; [exact H|]. exact (data_prep_no_exception sample_odd H).
Defined.

(** X3. Data preparation is non-destructive: it keeps the number of rows,
    adds exactly the three derived columns to every row and leaves every
    other column as it was. *)
Theorem data_prep_adds_three_columns (df df' : list (gmap string cell)) :
  data_prep df = Ok df' →
  length df' = length df
  ∧ Forall2 (λ r r',
        dom r' = list_to_set derived_columns ∪ dom r
        ∧ ∀ c, c ∉ derived_columns → r' !! c = r !! c) df df'.
Proof.
  rewrite data_prep_rowwise. intros H. split.
  { symmetry. by eapply Forall2_length. }
  eapply Forall2_impl; [exact H|]. clear. intros r r' Hr. split.
  - apply enrich_row_Ok in Hr as (?&?&?&?&?&?&?&?&_&_&_&_&_&_&_&_&->).
    rewrite !dom_insert_L. unfold derived_columns. simpl.
    apply set_eq. intros k.
    rewrite !elem_of_union, !elem_of_singleton, elem_of_empty. tauto.
  - intros c Hc. apply (enrich_row_source _ _ _ Hr);
      intros ->; apply Hc; by_evaluation.
Qed.

Lemma data_prep_adds_three_columns_witness :
  data_prep sample = Ok sample_enriched
  ∧ length sample_enriched = length sample.
Proof.
  assert (H : data_prep sample = Ok sample_enriched)
    by by_computation.
  split; [exact H|].
  exact (proj1 (data_prep_adds_three_columns sample sample_enriched H)).
Defined.

(** X4. A table in which some row lacks one of the five source columns is
    rejected: data preparation raises, and when the missing column is
    Attrition, the first one read, the exception is KeyError('Attrition'). *)
Theorem data_prep_missing_column (df : list (gmap string cell)) c :
  c ∈ source_columns → (∃ r, r ∈ df ∧ r !! c = None) →
  (∃ e, data_prep df = Raise e)
  ∧ (c = "Attrition" → data_prep df = Raise (KeyError "Attrition")).
Proof.
  intros Hc (r & Hin & Hnone). split.
  - destruct (data_prep df) as [df'|e] eqn:Hprep; [|by eexists].
    exfalso. apply data_prep_rowwise in Hprep.
    apply list_elem_of_lookup in Hin as [i Hi].
    destruct (Forall2_lookup_l _ _ _ _ _ Hprep Hi) as (r' & _ & Hr').
    apply enrich_row_Ok in Hr' as (?&?&?&?&?&?&?&?&Ha&Ho&Hj&He&Hw&_).
    unfold source_columns in Hc.
    repeat (apply elem_of_cons in Hc as [->|Hc]; [congruence|]).
    by apply elem_of_nil in Hc.
  - intros ->. unfold data_prep.
    rewrite (getitem_KeyError df "Attrition"); [done|by exists r].
Qed.

Lemma data_prep_missing_column_witness :
  "Attrition" ∈ source_columns
  ∧ data_prep sample_without_attrition = Raise (KeyError "Attrition").
Proof.
  assert (Hc : "Attrition" ∈ source_columns) by by_evaluation.
  split; [exact Hc|].
  refine (proj2 (data_prep_missing_column _ "Attrition" Hc _) eq_refl).
  eexists. split; [by left|]. by_computation.
Defined.

(** ** The risk rule read on the input table *)

Lemma flag_of_one a : flag_of a = CVal (Qc_of_Z 1) ↔ a = CStr "Yes".
Proof.
  destruct (flag_of_spec a) as [[-> ->]|[[-> ->]|(Hy & _ & ->)]].
  - done.
  - split; [by intros [=]|done].
  - split; [done|]. by intros ->.
Qed.

Lemma third_le_max (a : Qc) :
  a / Qc_of_Z 3 ≤ engagement_index_max ↔ a ≤ Q2Qc (15 # 2).
Proof.
  assert (H3 : 0 < Qc_of_Z 3).
  { rewrite <-Z2Qc_inj_0. by apply (proj1 (Z2Qc_inj_lt 0 3)). }
  rewrite (Qcmult_le_mono_pos_r _ _ _ H3).
  assert (Ha : a / Qc_of_Z 3 * Qc_of_Z 3 = a).
  { rewrite Qcmult_comm. apply Qcmult_div_r. by apply not_symmetry, Qclt_not_eq. }
  assert (Hm : engagement_index_max * Qc_of_Z 3 = Q2Qc (15 # 2))
    by by apply Qc_is_canon.
  by rewrite Ha, Hm.
Qed.

Lemma enrich_row_high_risk (r r' : gmap string cell) :
  enrich_row r = Ok r' → high_risk r' ↔ raw_high_risk r.
Proof.
  intros Hr.
  apply enrich_row_Ok in Hr as (a&o&j&e&w&x&y&i&Ha&Ho&Hj&He&Hw&Hx&Hy&Hi&->).
  unfold high_risk, raw_high_risk, ordinal_sum_le, field_eq, field_le,
    num_field.
  rewrite lookup_insert_eq.
  rewrite !(lookup_insert_ne _ "EngagementIndex") by done.
  rewrite lookup_insert_eq.
  rewrite !(lookup_insert_ne _ "OverTimeFlag") by done.
  rewrite !(lookup_insert_ne _ "AttritionFlag") by done.
  rewrite Ho, Hj, He, Hw.
  assert (Hflag : match flag_of o with
                  | CVal q => Some q
                  | _ => None
                  end = Some (Qc_of_Z 1) ↔ Some o = Some (CStr "Yes")).
  { split.
    - intros H. f_equal. apply flag_of_one.
      destruct (flag_of o) as [|[q|]]; try done. by injection H as ->.
    - intros [= Hyes]. apply flag_of_one in Hyes. by rewrite Hyes. }
  rewrite Hflag. clear Hflag.
  destruct j as [sj|[qj|]], e as [se|[qe|]]; simpl in Hx; simplify_eq;
    destruct w as [sw|[qw|]]; simpl in Hy; simplify_eq;
    simpl in Hi; simplify_eq; simpl; try tauto.
  by rewrite third_le_max.
Qed.

Lemma risk_df_filter (df : list (gmap string cell)) :
  Forall enriched_row df → risk_df df = Ok (filter high_risk df).
Proof.
  intros Hrows.
  assert (Hflag : Forall (λ r, is_Some (r !! "OverTimeFlag")) df).
  { eapply Forall_impl; [exact Hrows|]. by intros r (?&_). }
  assert (Hwlb : Forall (numeric_field "WorkLifeBalance") df).
  { eapply Forall_impl; [exact Hrows|]. by intros r (_&?&_). }
  assert (Hidx : Forall (numeric_field "EngagementIndex") df).
  { eapply Forall_impl; [exact Hrows|]. by intros r (_&_&?). }
  destruct (getitem_total _ _ Hflag) as [flag Hf].
  destruct (getitem_total df "WorkLifeBalance") as [wlb Hw].
  { eapply Forall_impl; [exact Hwlb|]. intros r [x ->]. by eexists. }
  destruct (getitem_total df "EngagementIndex") as [idx Hi].
  { eapply Forall_impl; [exact Hidx|]. intros r [x ->]. by eexists. }
  destruct (series_le_Forall2 _ _ _ (Qc_of_Z 2) Hw Hwlb) as (m2 & Hm2 & Hm2').
  destruct (series_le_Forall2 _ _ _ engagement_index_max Hi Hidx)
    as (m3 & Hm3 & Hm3').
  pose proof (series_eq_Forall2 _ _ _ (Qc_of_Z 1) Hf) as Hm1'.
  unfold risk_df. rewrite Hf. cbn [mbind result_bind].
  rewrite Hw. cbn [mbind result_bind]. rewrite Hm2. cbn [mbind result_bind].
  rewrite Hi. cbn [mbind result_bind]. rewrite Hm3. cbn [mbind result_bind].
  unfold mret, result_ret. f_equal. apply getitem_mask_filter.
  pose proof (mask_and_Forall2 _ _ _ _ _
                (mask_and_Forall2 _ _ _ _ _ Hm1' Hm2') Hm3') as Hmask.
  eapply Forall2_impl; [exact Hmask|].
  intros r b ->. apply bool_decide_intro.
  rewrite !andb_true_iff, !bool_decide_eq_true. unfold high_risk. tauto.
Qed.

Lemma Forall2_filter {X Y} (R : X → Y → Prop) (P : X → Prop) (Q : Y → Prop)
    `{!∀ x, Decision (P x)} `{!∀ y, Decision (Q y)} l k :
  Forall2 (λ x y, R x y ∧ (Q y ↔ P x)) l k →
  Forall2 R (filter P l) (filter Q k).
Proof.
  induction 1 as [|x y l k [HR HPQ] _ IH]; [constructor|].
  rewrite !filter_cons. destruct (decide (P x)), (decide (Q y)); try tauto.
  by constructor.
Qed.

Lemma data_prep_enriched (df df' : list (gmap string cell)) :
  Forall (numeric_field "WorkLifeBalance") df → data_prep df = Ok df' →
  Forall enriched_row df'.
Proof.
  intros Hwlb Hprep. apply data_prep_rowwise in Hprep.
  induction Hprep as [|r r' df df1 Hr _ IH]; [constructor|].
  apply Forall_cons in Hwlb as [[w Hw] Hwlb].
  constructor; [|by apply IH].
  apply enrich_row_Ok in Hr as (?&?&?&?&?&?&?&i&_&_&_&_&_&_&_&Hi&->).
  split; [|split].
  - rewrite lookup_insert_ne by done. rewrite lookup_insert_eq. by eexists.
  - exists w. by rewrite !lookup_insert_ne.
  - unfold numeric_field. rewrite lookup_insert_eq.
    match type of Hi with cell_div ?y _ = _ => destruct y; [done|] end.
    injection Hi as <-. by eexists.
Qed.

(** X5. On a table whose three ordinal columns hold integers or missing
    values, the risk rule of lines 194-198, read on the input table, selects
    exactly the records with OverTime "Yes", WorkLifeBalance <= 2 and
    JobSatisfaction + EnvironmentSatisfaction + WorkLifeBalance <= 7.5;
    a record with any other OverTime cell or a missing ordinal value is
    never selected.  The selected rows are the enrichments of those
    records, in order. *)
Theorem risk_rule_on_input_columns (df df' : list (gmap string cell)) :
  Forall ordinal_row df → data_prep df = Ok df' →
  Forall2 (λ r r', high_risk r' ↔ raw_high_risk r) df df'
  ∧ ∃ out, risk_df df' = Ok out
      ∧ Forall2 (λ r r', enrich_row r = Ok r') (filter raw_high_risk df) out.
Proof.
  intros Hord Hprep.
  assert (Hwlb : Forall (numeric_field "WorkLifeBalance") df).
  { eapply Forall_impl; [exact Hord|]. intros r (_ & _ & Hw).
    unfold ordinal_field in Hw. unfold numeric_field.
    destruct (r !! "WorkLifeBalance") as [[?|x]|]; [done| |done].
    by exists x. }
  pose proof (data_prep_enriched _ _ Hwlb Hprep) as Henr.
  apply data_prep_rowwise in Hprep. split.
  - eapply Forall2_impl; [exact Hprep|]. apply enrich_row_high_risk.
  - exists (filter high_risk df'). split; [by apply risk_df_filter|].
    apply Forall2_filter. eapply Forall2_impl; [exact Hprep|].
    intros r r' Hr. split; [done|]. by apply enrich_row_high_risk.
Qed.

Lemma risk_rule_on_input_columns_witness :
  Forall ordinal_row sample
  ∧ data_prep sample = Ok sample_enriched
  ∧ ∃ out, risk_df sample_enriched = Ok out
      ∧ Forall2 (λ r r', enrich_row r = Ok r')
                (filter raw_high_risk sample) out.
Proof.
  assert (Hw : Forall ordinal_row sample) by by_evaluation.
  assert (H : data_prep sample = Ok sample_enriched)
    by by_computation.
  split; [exact Hw|]. split; [exact H|].
  exact (proj2 (risk_rule_on_input_columns sample sample_enriched Hw H)).
Defined.

(** ** The sidebar: options, default selection and narrowing *)

Lemma unique_from_elem_of seen s a :
  a ∈ unique_from seen s ↔ a ∈ s ∧ a ∉ seen.
Proof.
  revert seen. induction s as [|b s IH]; intros seen; simpl.
  - rewrite elem_of_nil. tauto.
  - case_decide as Hb.
    + rewrite IH, elem_of_cons. split; [tauto|].
      intros [[->|?] ?]; tauto.
    + rewrite !elem_of_cons, IH, elem_of_cons.
      destruct (decide (a = b)) as [->|]; tauto.
Qed.

Lemma unique_from_NoDup seen s : NoDup (unique_from seen s).
Proof.
  revert seen. induction s as [|b s IH]; intros seen; simpl.
  - constructor.
  - case_decide; [apply IH|]. constructor; [|apply IH].
    rewrite unique_from_elem_of, elem_of_cons. tauto.
Qed.

Lemma filter_all (P : gmap string cell → Prop) `{!∀ r, Decision (P r)}
    (l : list (gmap string cell)) :
  (∀ r, r ∈ l → P r) → filter P l = l.
Proof.
  induction l as [|r l IH]; intros Hall; [done|].
  rewrite filter_cons_True by (apply Hall; left).
  f_equal. apply IH. intros r' Hr'. apply Hall. by right.
Qed.

Lemma department_filter_filter (df : list (gmap string cell)) dept :
  Forall (λ r, is_Some (r !! "Department")) df →
  department_filter df dept = Ok (filter (field_in "Department" dept) df).
Proof.
  intros Hcol. destruct (getitem_total _ _ Hcol) as [s Hs].
  unfold department_filter. rewrite Hs. cbn [mbind result_bind].
  unfold mret, result_ret. f_equal.
  apply getitem_mask_filter. by apply series_isin_Forall2.
Qed.

Lemma department_filter_has_column (df out : list (gmap string cell)) dept :
  department_filter df dept = Ok out →
  Forall (λ r, is_Some (r !! "Department")) df.
Proof.
  unfold department_filter.
  destruct (getitem df "Department") as [s|] eqn:Hs; [|done]. intros _.
  apply getitem_Ok in Hs.
  induction Hs as [|r a df s Hr _ IH]; constructor; [by eexists|done].
Qed.

(** X6. The options offered in the sidebar (lines 51-52) are the distinct
    Department values of the table, each listed once, and with the default
    selection, which is all of them, the filter of line 55 keeps the whole
    table. *)
Theorem default_selection_keeps_all (df : list (gmap string cell)) options :
  department_options df = Ok options →
  NoDup options
  ∧ (∀ a, a ∈ options ↔ ∃ r, r ∈ df ∧ r !! "Department" = Some a)
  ∧ department_filter df options = Ok df.
Proof.
  unfold department_options.
  destruct (getitem df "Department") as [s|] eqn:Hs; [|done].
  intros [= <-].
  assert (Hmem : ∀ a, a ∈ series_unique s
                      ↔ ∃ r, r ∈ df ∧ r !! "Department" = Some a).
  { intros a. unfold series_unique.
    rewrite unique_from_elem_of, elem_of_nil.
    apply getitem_Ok in Hs. clear -Hs. split.
    - intros [Ha _]. apply list_elem_of_lookup in Ha as [i Hi].
      destruct (Forall2_lookup_r _ _ _ _ _ Hs Hi) as (r & Hr & Hra).
      exists r. split; [|done]. apply list_elem_of_lookup. by exists i.
    - intros (r & Hr & Hra). split; [|tauto].
      apply list_elem_of_lookup in Hr as [i Hi].
      destruct (Forall2_lookup_l _ _ _ _ _ Hs Hi) as (a' & Ha' & Hra').
      simplify_eq. apply list_elem_of_lookup. by exists i. }
  split; [apply unique_from_NoDup|]. split; [exact Hmem|].
  assert (Hcol : Forall (λ r, is_Some (r !! "Department")) df).
  { apply getitem_Ok in Hs. clear -Hs.
    induction Hs; constructor; [by eexists|done]. }
  rewrite (department_filter_filter _ _ Hcol). f_equal.
  apply filter_all. intros r Hr. unfold field_in.
  rewrite Forall_forall in Hcol. destruct (Hcol r Hr) as [a Ha].
  rewrite Ha. apply Hmem. by exists r.
Qed.

Lemma default_selection_keeps_all_witness :
  department_options sample = Ok [CStr "Sales"; CStr "Research"]
  ∧ department_filter sample [CStr "Sales"; CStr "Research"] = Ok sample.
Proof.
  assert (H : department_options sample = Ok [CStr "Sales"; CStr "Research"])
    by by_computation.
  split; [exact H|].
  exact (proj2 (proj2 (default_selection_keeps_all sample _ H))).
Defined.

(** X7. Narrowing a selection: filtering an already filtered table by a
    second selection keeps the rows whose Department is in both, whichever
    selection is applied first, and filtering again by the same selection
    changes nothing. *)
Theorem department_filter_twice (df out : list (gmap string cell)) d1 d2 :
  department_filter df d1 = Ok out →
  department_filter out d2
  = Ok (filter (λ r, field_in "Department" d2 r ∧ field_in "Department" d1 r)
               df)
  ∧ (department_filter df d2 ≫= λ out', department_filter out' d1)
    = department_filter out d2
  ∧ department_filter out d1 = Ok out.
Proof.
  intros Hrun. pose proof (department_filter_has_column _ _ _ Hrun) as Hcol.
  rewrite (department_filter_filter _ _ Hcol) in Hrun. injection Hrun as <-.
  assert (Hsub : ∀ d, Forall (λ r : gmap string cell,
                                is_Some (r !! "Department"))
                         (filter (field_in "Department" d) df)).
  { intros d. rewrite Forall_forall in Hcol |- *.
    intros r Hr. apply Hcol. by apply list_elem_of_filter in Hr as [_ ?]. }
  split; [|split].
  - by rewrite (department_filter_filter _ _ (Hsub d1)), list_filter_filter.
  - rewrite (department_filter_filter _ _ Hcol). cbn [mbind result_bind].
    rewrite !department_filter_filter by done.
    rewrite !list_filter_filter. f_equal.
    apply list_filter_iff. tauto.
  - rewrite (department_filter_filter _ _ (Hsub d1)), list_filter_filter.
    f_equal. apply list_filter_iff. tauto.
Qed.

Lemma department_filter_twice_witness :
  department_filter sample [CStr "Sales"; CStr "Research"] = Ok sample
  ∧ department_filter sample [CStr "Sales"]
    = Ok (filter (λ r, field_in "Department" [CStr "Sales"] r
                       ∧ field_in "Department"
                                  [CStr "Sales"; CStr "Research"] r) sample).
Proof.
  assert (H : department_filter sample [CStr "Sales"; CStr "Research"]
              = Ok sample) by by_computation.
  split; [exact H|].
  exact (proj1 (department_filter_twice sample sample _ [CStr "Sales"] H)).
Defined.

(** X8. Preparing and filtering commute: the table obtained by data
    preparation followed by the department filter (the order of the
    script) is also what data preparation yields on the filtered input
    table. *)
Theorem filter_then_prepare (df df1 out : list (gmap string cell)) dept :
  data_prep df = Ok df1 → department_filter df1 dept = Ok out →
  ∃ d, department_filter df dept = Ok d ∧ data_prep d = Ok out.
Proof.
  intros Hprep Hrun.
  pose proof (department_filter_has_column _ _ _ Hrun) as Hcol1.
  rewrite (department_filter_filter _ _ Hcol1) in Hrun. injection Hrun as <-.
  apply data_prep_rowwise in Hprep.
  assert (Hcol : Forall (λ r, is_Some (r !! "Department")) df).
  { clear -Hprep Hcol1.
    induction Hprep as [|r r' df df1 Hr _ IH]; [constructor|].
    apply Forall_cons in Hcol1 as [H1 Hcol1]. constructor; [|by apply IH].
    by rewrite <-(enrich_row_source _ _ "Department" Hr). }
  exists (filter (field_in "Department" dept) df).
  split; [by apply department_filter_filter|].
  apply data_prep_rowwise, Forall2_filter.
  eapply Forall2_impl; [exact Hprep|].
  intros r r' Hr. split; [done|]. unfold field_in.
  by rewrite (enrich_row_source _ _ "Department" Hr).
Qed.

Lemma filter_then_prepare_witness :
  data_prep sample = Ok sample_enriched
  ∧ department_filter sample_enriched [CStr "Sales"]
    = Ok (filter (field_in "Department" [CStr "Sales"]) sample_enriched)
  ∧ ∃ d, department_filter sample [CStr "Sales"] = Ok d
         ∧ data_prep d
           = Ok (filter (field_in "Department" [CStr "Sales"])
                        sample_enriched).
Proof.
  assert (H : data_prep sample = Ok sample_enriched)
    by by_computation.
  assert (Hf : department_filter sample_enriched [CStr "Sales"]
               = Ok (filter (field_in "Department" [CStr "Sales"])
                            sample_enriched)) by by_computation.
  split; [exact H|]. split; [exact Hf|].
  exact (filter_then_prepare sample sample_enriched _ _ H Hf).
Defined.

(** ** The risk table (lines 205-213) *)

Lemma row_select_Ok (columns : list string) (r : gmap string cell) :
  Forall (λ c, is_Some (r !! c)) columns →
  ∃ m, row_select columns r = Ok m
       ∧ dom m = list_to_set columns
       ∧ ∀ c, c ∈ columns → m !! c = r !! c.
Proof.
  induction 1 as [|c columns [a Ha] _ (m & Hm & Hdom & Hval)]; simpl.
  - exists ∅. split; [done|]. split; [by rewrite dom_empty_L|].
    intros c Hc. by apply elem_of_nil in Hc.
  - exists (<[c := a]> m). unfold row_get. rewrite Ha, Hm.
    split; [done|]. split; [by rewrite dom_insert_L, Hdom|].
    intros c' Hc'. destruct (decide (c = c')) as [<-|Hne].
    + by rewrite lookup_insert_eq.
    + rewrite lookup_insert_ne by done. apply Hval.
      apply elem_of_cons in Hc' as [->|?]; [done|done].
Qed.

Lemma select_columns_Ok (df : list (gmap string cell)) columns :
  Forall (λ r : gmap string cell, Forall (λ c, is_Some (r !! c)) columns) df →
  ∃ t, select_columns df columns = Ok t
       ∧ Forall2 (λ (r row : gmap string cell),
             dom row = list_to_set columns
             ∧ ∀ c, c ∈ columns → row !! c = r !! c) df t.
Proof.
  unfold select_columns.
  induction 1 as [|r df Hr _ (t & Ht & Hrows)]; simpl.
  - exists []. split; [done|constructor].
  - destruct (row_select_Ok _ _ Hr) as (m & Hm & Hdom & Hval).
    exists (m :: t). rewrite Hm. cbn [mbind result_bind]. rewrite Ht.
    split; [done|]. by constructor.
Qed.

(** X9. The table under the warning shows the first ten high-risk rows, in
    order and never more than ten, each reduced to exactly the five listed
    columns with the values it has in [risk_df]; with ten rows or fewer at
    risk, all of them are shown. *)
Theorem risk_table_first_ten (df : list (gmap string cell)) :
  Forall enriched_row df →
  Forall (λ r, is_Some (r !! "Department") ∧ is_Some (r !! "JobRole")
               ∧ is_Some (r !! "JobSatisfaction")) df →
  ∃ table,
    risk_table df = Ok table
    ∧ length table = (length (filter high_risk df) `min` 10)%nat
    ∧ Forall2 (λ (r row : gmap string cell),
          dom row = list_to_set risk_table_columns
          ∧ ∀ c, c ∈ risk_table_columns → row !! c = r !! c)
        (take 10 (filter high_risk df)) table.
Proof.
  intros Henr Hcols. unfold risk_table.
  rewrite (risk_df_filter _ Henr). cbn [mbind result_bind].
  destruct (select_columns_Ok (filter high_risk df) risk_table_columns)
    as (t & Ht & Hrows).
  { rewrite Forall_forall in Henr, Hcols |- *. intros r Hr.
    apply list_elem_of_filter in Hr as [_ Hr].
    destruct (Henr r Hr) as (_ & [w Hw] & [i Hi]).
    destruct (Hcols r Hr) as (Hd & Hj & Hs).
    assert (is_Some (r !! "WorkLifeBalance")) by (rewrite Hw; by eexists).
    assert (is_Some (r !! "EngagementIndex")) by (rewrite Hi; by eexists).
    unfold risk_table_columns. by repeat (apply Forall_cons; split). }
  rewrite Ht. cbn [mbind result_bind]. exists (head 10 t).
  split; [done|]. unfold head. split.
  - rewrite length_take. apply Forall2_length in Hrows. lia.
  - by apply Forall2_take.
Qed.

Lemma risk_table_first_ten_witness :
  Forall enriched_row sample_enriched
  ∧ ∃ table, risk_table sample_enriched = Ok table ∧ length table = 2%nat.
Proof.
  assert (H : Forall enriched_row sample_enriched) by by_evaluation.
  assert (Hc : Forall (λ r : gmap string cell,
                         is_Some (r !! "Department") ∧ is_Some (r !! "JobRole")
                         ∧ is_Some (r !! "JobSatisfaction")) sample_enriched)
    by by_evaluation.
  split; [exact H|].
  destruct (risk_table_first_ten sample_enriched H Hc) as (t & Ht & Hlen & _).
  exists t. split; [exact Ht|]. rewrite Hlen. by_computation.
Defined.

(** ** Rounding *)

Lemma round_half_even_mono (p q : Qc) :
  p ≤ q → (Py.round_half_even p ≤ Py.round_half_even q)%Z.
Proof.
  intros Hle.
  assert (Hpq : (Qnum p * QDen q ≤ Qnum q * QDen p)%Z) by exact Hle.
  destruct (round_half_even_spec p) as (Hlo & _ & Hlow & _).
  destruct (round_half_even_spec q) as (_ & Hhi & _ & Hupp).
  assert (Hdp : (0 < QDen p)%Z) by lia. assert (Hdq : (0 < QDen q)%Z) by lia.
  revert Hpq Hlo Hhi Hlow Hupp Hdp Hdq.
  generalize (Py.round_half_even p) (Py.round_half_even q).
  generalize (Qnum p) (QDen p) (Qnum q) (QDen q). intros a b c d r t.
  intros Hpq Hlo Hhi Hlow Hupp Hdp Hdq.
  destruct (decide (r ≤ t)%Z) as [|Hgt]; [done|]. exfalso.
  assert (H1 : ((2 * r - 1) * (b * d) ≤ 2 * a * d)%Z).
  { replace ((2 * r - 1) * (b * d))%Z with (((2 * r - 1) * b) * d)%Z by ring.
    apply Z.mul_le_mono_nonneg_r; lia. }
  assert (H2 : (2 * c * b ≤ (2 * t + 1) * (b * d))%Z).
  { replace ((2 * t + 1) * (b * d))%Z with (((2 * t + 1) * d) * b)%Z by ring.
    apply Z.mul_le_mono_nonneg_r; lia. }
  assert (HA : (0 < b * d)%Z) by nia.
  assert (H3 : ((2 * r - 1) * (b * d) ≤ (2 * t + 1) * (b * d))%Z) by lia.
  apply Z.mul_le_mono_pos_r in H3; [|done].
  assert (Hrt : (r = t + 1)%Z) by lia. subst r.
  assert (E1 : (2 * a * d = (2 * (t + 1) - 1) * (b * d))%Z).
  { replace (2 * (t + 1) - 1)%Z with (2 * t + 1)%Z in * by ring. lia. }
  assert (E2 : (2 * c * b = (2 * t + 1) * (b * d))%Z).
  { replace (2 * (t + 1) - 1)%Z with (2 * t + 1)%Z in * by ring. lia. }
  assert (E1' : (2 * a = (2 * (t + 1) - 1) * b)%Z).
  { apply (Z.mul_reg_r _ _ d); [lia|]. rewrite E1. ring. }
  assert (E2' : (2 * c = (2 * t + 1) * d)%Z).
  { apply (Z.mul_reg_r _ _ b); [lia|]. rewrite E2. ring. }
  specialize (Hlow E1'). specialize (Hupp E2').
  rewrite Z.even_add in Hlow. rewrite Hupp in Hlow. done.
Qed.

Lemma round_half_even_Z (k : Z) : Py.round_half_even (Qc_of_Z k) = k.
Proof.
  unfold Py.round_half_even.
  change (Qnum (Qc_of_Z k)) with k.
  change (Z.pos (Qden (Qc_of_Z k))) with 1%Z.
  change (2 * 1)%Z with 2%Z.
  assert (Hdiv : ((2 * k + 1) `div` 2 = k)%Z)
    by (symmetry; apply (Z.div_unique _ _ _ 1); lia).
  assert (Hmod : ((2 * k + 1) `mod` 2 = 1)%Z)
    by (symmetry; apply (Z.mod_unique _ _ k 1); lia).
  rewrite Hdiv, Hmod. by rewrite decide_False by (by intros [? _]).
Qed.

Lemma pow10_pos nd : 0 < Py.pow10 nd.
Proof.
  unfold Py.pow10. rewrite <-Z2Qc_inj_0.
  apply (proj1 (Z2Qc_inj_lt 0 _)). apply Z.pow_pos_nonneg; lia.
Qed.

Lemma Qc_of_Z_le (a b : Z) : (a ≤ b)%Z → Qc_of_Z a ≤ Qc_of_Z b.
Proof. apply Z2Qc_inj_le. Qed.

Lemma round_within (lo hi : Z) (q : Qc) nd :
  Qc_of_Z lo ≤ q → q ≤ Qc_of_Z hi →
  ∃ q', Py.round (Py.Fin q) nd = Py.Fin q'
        ∧ Qc_of_Z lo ≤ q' ∧ q' ≤ Qc_of_Z hi.
Proof.
  intros Hlo Hhi. eexists. split; [done|].
  pose proof (pow10_pos nd) as Hp. apply Qcdiv_bounds; [done| |].
  - unfold Py.pow10 at 1. rewrite <-Z2Qc_inj_mul. apply Qc_of_Z_le.
    rewrite <-(round_half_even_Z (lo * 10 ^ Z.of_nat nd)).
    apply round_half_even_mono. rewrite Z2Qc_inj_mul.
    apply Qcmult_le_compat_r; [done|by apply Qclt_le_weak].
  - unfold Py.pow10 at 2. rewrite <-Z2Qc_inj_mul. apply Qc_of_Z_le.
    rewrite <-(round_half_even_Z (hi * 10 ^ Z.of_nat nd)).
    apply round_half_even_mono. rewrite Z2Qc_inj_mul.
    apply Qcmult_le_compat_r; [done|by apply Qclt_le_weak].
Qed.

Lemma round_mono (p q : Qc) nd :
  p ≤ q →
  ∃ p' q', Py.round (Py.Fin p) nd = Py.Fin p'
           ∧ Py.round (Py.Fin q) nd = Py.Fin q' ∧ p' ≤ q'.
Proof.
  intros Hpq. eexists _, _. split; [done|]. split; [done|].
  pose proof (pow10_pos nd) as Hp.
  apply Qcmult_le_compat_r; [|by apply Qclt_le_weak, Qcinv_pos].
  apply Qc_of_Z_le, round_half_even_mono.
  apply Qcmult_le_compat_r; [done|by apply Qclt_le_weak].
Qed.

Lemma of_nat_le (a b : nat) : (a ≤ b)%nat → Py.of_nat a ≤ Py.of_nat b.
Proof. intros H. apply Qc_of_Z_le. lia. Qed.

(** A count out of a positive total, as a percentage. *)
Lemma share_bounds (c n : nat) :
  (c ≤ n)%nat → (0 < n)%nat →
  Qc_of_Z 0 ≤ Py.of_nat c / Py.of_nat n * Qc_of_Z 100
  ∧ Py.of_nat c / Py.of_nat n * Qc_of_Z 100 ≤ Qc_of_Z 100.
Proof.
  intros Hc Hn.
  assert (H100 : 0 ≤ Qc_of_Z 100).
  { rewrite <-Z2Qc_inj_0. by apply Qc_of_Z_le. }
  destruct (Qcdiv_bounds (Py.of_nat c) (Py.of_nat n) 0 1) as [H0 H1].
  - destruct n; [lia|]. apply of_nat_pos.
  - rewrite Qcmult_0_l. apply of_nat_nonneg.
  - rewrite Qcmult_1_l. by apply of_nat_le.
  - split.
    + rewrite Z2Qc_inj_0, <-(Qcmult_0_l (Qc_of_Z 100)).
      by apply Qcmult_le_compat_r.
    + rewrite <-(Qcmult_1_l (Qc_of_Z 100)) at 2.
      by apply Qcmult_le_compat_r.
Qed.

Lemma share_mono (c c' n : nat) :
  (c ≤ c')%nat → (0 < n)%nat →
  Py.of_nat c / Py.of_nat n * Qc_of_Z 100
  ≤ Py.of_nat c' / Py.of_nat n * Qc_of_Z 100.
Proof.
  intros Hc Hn.
  assert (H100 : 0 ≤ Qc_of_Z 100).
  { rewrite <-Z2Qc_inj_0. by apply Qc_of_Z_le. }
  apply Qcmult_le_compat_r; [|done].
  apply Qcmult_le_compat_r; [by apply of_nat_le|].
  destruct n; [lia|]. apply Qclt_le_weak, Qcinv_pos, of_nat_pos.
Qed.

Lemma filter_length_le (P Q : gmap string cell → Prop)
    `{!∀ r, Decision (P r)} `{!∀ r, Decision (Q r)}
    (l : list (gmap string cell)) :
  (∀ r, P r → Q r) → (length (filter P l) ≤ length (filter Q l))%nat.
Proof.
  intros HPQ. induction l as [|r l IH]; [done|].
  rewrite !filter_cons.
  destruct (decide (P r)) as [HP|], (decide (Q r)) as [|HQ]; simpl; try lia.
  destruct HQ. by apply HPQ.
Qed.

Lemma attrition_rate_value (df : list (gmap string cell)) :
  Forall (λ r, is_Some (r !! "Attrition")) df →
  attrition_rate df
  = Ok (Py.Fin
          (if decide (length df = 0)%nat then Qc_of_Z 0
           else Py.of_nat (length (filter (field_eq "Attrition" (Qc_of_Z 1)) df))
                / Py.of_nat (length df) * Qc_of_Z 100)).
Proof.
  intros Hcol. unfold attrition_rate, total_employees.
  rewrite (attrition_count_filter _ Hcol).
  destruct df as [|r df]; [done|].
  cbn [mbind result_bind].
  rewrite decide_True by (simpl; lia).
  by rewrite (decide_False (P := length (r :: df) = 0%nat)).
Qed.

Lemma high_burnout_risk_pct_value (df : list (gmap string cell)) :
  df ≠ [] →
  Forall (λ r, is_Some (r !! "OverTimeFlag")
               ∧ numeric_field "WorkLifeBalance" r) df →
  high_burnout_risk_pct df
  = Ok (Py.round
          (Py.Fin (Py.of_nat (length (filter overtime_low_balance df))
                   / Py.of_nat (length df) * Qc_of_Z 100)) 1).
Proof.
  intros Hne Hrows.
  assert (Hflag : Forall (λ r, is_Some (r !! "OverTimeFlag")) df).
  { eapply Forall_impl; [exact Hrows|]. by intros r [? _]. }
  assert (Hwlb : Forall (numeric_field "WorkLifeBalance") df).
  { eapply Forall_impl; [exact Hrows|]. by intros r [_ ?]. }
  destruct (getitem_total _ _ Hflag) as [flag Hf].
  destruct (getitem_total df "WorkLifeBalance") as [wlb Hw].
  { eapply Forall_impl; [exact Hwlb|]. intros r [x ->]. by eexists. }
  destruct (series_le_Forall2 _ _ _ (Qc_of_Z 2) Hw Hwlb) as (m2 & Hm2 & Hm2').
  pose proof (series_eq_Forall2 _ _ _ (Qc_of_Z 1) Hf) as Hm1'.
  unfold high_burnout_risk_pct.
  rewrite Hf. cbn [mbind result_bind]. rewrite Hw. cbn [mbind result_bind].
  rewrite Hm2. cbn [mbind result_bind].
  rewrite (getitem_mask_filter overtime_low_balance).
  - by destruct df.
  - pose proof (mask_and_Forall2 _ _ _ _ _ Hm1' Hm2') as Hmask.
    eapply Forall2_impl; [exact Hmask|].
    intros r b ->. apply bool_decide_intro.
    rewrite andb_true_iff, !bool_decide_eq_true.
    unfold overtime_low_balance. tauto.
Qed.

Lemma risk_pct_value (df : list (gmap string cell)) :
  df ≠ [] → Forall enriched_row df →
  risk_pct df
  = Ok (Py.round
          (Py.Fin (Py.of_nat (length (filter high_risk df))
                   / Py.of_nat (length df) * Qc_of_Z 100)) 1).
Proof.
  intros Hne Hrows. unfold risk_pct. rewrite (risk_df_filter _ Hrows).
  cbn [mbind result_bind]. by destruct df.
Qed.

(** X10. On a non-empty enriched table the High Burnout Risk % of line 83
    and the share shown in the warning of line 202 are numbers between 0 and
    100, and the share in the warning never exceeds the KPI. *)
Theorem risk_percentages_in_range (df : list (gmap string cell)) :
  df ≠ [] → Forall enriched_row df →
  ∃ kpi share : Qc,
    high_burnout_risk_pct df = Ok (Py.Fin kpi)
    ∧ risk_pct df = Ok (Py.Fin share)
    ∧ Qc_of_Z 0 ≤ share ∧ share ≤ kpi ∧ kpi ≤ Qc_of_Z 100.
Proof.
  intros Hne Hrows.
  rewrite risk_pct_value, high_burnout_risk_pct_value; [|done| |done..].
  2:{ eapply Forall_impl; [exact Hrows|]. by intros r (?&?&_). }
  assert (Hn : (0 < length df)%nat) by (destruct df; [done|simpl; lia]).
  assert (H32 : (length (filter high_risk df)
                 ≤ length (filter overtime_low_balance df))%nat).
  { apply filter_length_le. by intros r (?&?&_). }
  assert (H2n : (length (filter overtime_low_balance df) ≤ length df)%nat)
    by apply length_filter.
  destruct (share_bounds _ _ H2n Hn) as [Hk0 Hk100].
  destruct (share_bounds (length (filter high_risk df)) (length df)) as [Hs0 _];
    [lia|done|].
  destruct (round_within 0 100 _ 1 Hk0 Hk100) as (kpi & Hkpi & _ & Hkpi100).
  destruct (round_mono _ _ 1 (share_mono _ _ _ H32 Hn))
    as (share & kpi' & Hshare & Hkpi' & Hle).
  destruct (round_mono _ _ 1 Hs0) as (z & share' & Hz & Hshare' & Hle0).
  rewrite Hkpi in Hkpi'. injection Hkpi' as <-.
  rewrite Hshare in Hshare'. injection Hshare' as <-.
  assert (Hz0 : z = Qc_of_Z 0).
  { destruct (round_within 0 0 (Qc_of_Z 0) 1) as (z' & Hz' & ? & ?);
      [apply Qcle_refl..|].
    rewrite Hz in Hz'. injection Hz' as <-. by apply Qcle_antisym. }
  subst z. exists kpi, share. by rewrite Hkpi, Hshare.
Qed.

Lemma risk_percentages_in_range_witness :
  sample_enriched ≠ [] ∧ Forall enriched_row sample_enriched
  ∧ ∃ kpi share : Qc,
      high_burnout_risk_pct sample_enriched = Ok (Py.Fin kpi)
      ∧ risk_pct sample_enriched = Ok (Py.Fin share)
      ∧ Qc_of_Z 0 ≤ share ∧ share ≤ kpi ∧ kpi ≤ Qc_of_Z 100.
Proof.
  assert (Hne : sample_enriched ≠ []) by discriminate.
  assert (H : Forall enriched_row sample_enriched) by by_evaluation.
  split; [exact Hne|]. split; [exact H|].
  exact (risk_percentages_in_range sample_enriched Hne H).
Defined.

(** X11. Whenever the Attrition column is present, the attrition rate of
    line 61 is a number between 0 and 100: it is never NaN and never raises,
    the table without rows included. *)
Theorem attrition_rate_in_range (df : list (gmap string cell)) :
  Forall (λ r, is_Some (r !! "Attrition")) df →
  ∃ rate : Qc, attrition_rate df = Ok (Py.Fin rate)
               ∧ Qc_of_Z 0 ≤ rate ∧ rate ≤ Qc_of_Z 100.
Proof.
  intros Hcol. rewrite (attrition_rate_value _ Hcol). eexists. split; [done|].
  case_decide as Hlen.
  - split; [apply Qcle_refl|]. by apply Qc_of_Z_le.
  - apply share_bounds; [apply length_filter|lia].
Qed.

Lemma attrition_rate_in_range_witness :
  Forall (λ r, is_Some (r !! "Attrition")) sample
  ∧ ∃ rate : Qc, attrition_rate sample = Ok (Py.Fin rate)
                 ∧ Qc_of_Z 0 ≤ rate ∧ rate ≤ Qc_of_Z 100.
Proof.
  assert (H : Forall (λ r : gmap string cell, is_Some (r !! "Attrition"))
                sample) by by_evaluation.
  split; [exact H|]. exact (attrition_rate_in_range sample H).
Defined.

Lemma overtime_flags_values (d : list (gmap string cell)) :
  Forall overtime_flagged d →
  ∃ s vs, getitem d "OverTimeFlag" = Ok s ∧ numeric_values s = Ok vs
    ∧ length vs
      = (length (filter (field_eq "OverTimeFlag" (Qc_of_Z 1)) d)
         + length (filter (field_eq "OverTimeFlag" (Qc_of_Z 0)) d))%nat
    ∧ sum_list vs
      = Py.of_nat (length (filter (field_eq "OverTimeFlag" (Qc_of_Z 1)) d)).
Proof.
  induction 1 as [|r d Hr _ (s & vs & Hs & Hvs & Hlen & Hsum)].
  - exists [], []. repeat split; try done. simpl. by rewrite of_nat_0.
  - rewrite getitem_cons, Hs. unfold row_get.
    destruct Hr as [Hr|[Hr|Hr]]; rewrite Hr; cbn [mbind result_bind].
    + exists (CVal (Qc_of_Z 1) :: s), (Qc_of_Z 1 :: vs).
      rewrite filter_cons_True by (unfold field_eq, num_field; by rewrite Hr).
      rewrite filter_cons_False.
      2:{ unfold field_eq, num_field. rewrite Hr. by intros [=]. }
      simpl. rewrite Hvs, Hlen, Hsum, of_nat_S, Z2Qc_inj_1. done.
    + exists (CVal (Qc_of_Z 0) :: s), (Qc_of_Z 0 :: vs).
      rewrite filter_cons_False.
      2:{ unfold field_eq, num_field. rewrite Hr. by intros [=]. }
      rewrite filter_cons_True by (unfold field_eq, num_field; by rewrite Hr).
      simpl. rewrite Hvs, Hlen, Hsum, Z2Qc_inj_0, Qcplus_0_l.
      repeat split; try done; lia.
    + exists (CNaN :: s), vs.
      rewrite !filter_cons_False
        by (unfold field_eq, num_field; by rewrite Hr).
      simpl. by rewrite Hvs.
Qed.

(** X12. The Overtime % of line 73 is taken over the records whose flag is
    0 or 1: records with a missing flag are left out of the denominator, and
    the result is NaN when no record has a flag, as on the table without
    rows.  Otherwise it is a whole number of tenths, and no tenth is nearer
    to the percentage of flags equal to 1 among the flags present (when the
    percentage lies half-way between two tenths, either of them).  The
    bound on the number of rows keeps the rounding error of the double far
    below the distance between a percentage and the nearest tie. *)
Theorem overtime_pct_share (d : list (gmap string cell)) :
  Forall overtime_flagged d →
  (Z.of_nat (length d) < 10 ^ 9)%Z →
  let yes := length (filter (field_eq "OverTimeFlag" (Qc_of_Z 1)) d) in
  let no := length (filter (field_eq "OverTimeFlag" (Qc_of_Z 0)) d) in
  if decide (yes + no = 0)%nat then overtime_pct d = Ok Py.NaN
  else ∃ tenths : Z,
         overtime_pct d = Ok (Py.Fin (Qc_of_Z tenths / Qc_of_Z 10))
         ∧ (2 * Z.abs (tenths * Z.of_nat (yes + no) - 1000 * Z.of_nat yes)
            ≤ Z.of_nat (yes + no))%Z.
Proof.
  intros Hd _ yes no.
  destruct (overtime_flags_values d Hd) as (s & vs & Hs & Hvs & Hlen & Hsum).
  fold yes in Hlen, Hsum. fold no in Hlen.
  unfold overtime_pct. rewrite Hs. cbn [mbind result_bind].
  unfold series_mean. rewrite Hvs. cbn [mbind result_bind].
  destruct vs as [|v vs].
  - simpl in Hlen. by rewrite decide_True.
  - rewrite decide_False by (simpl in Hlen; lia).
    destruct (round_share_tenths yes (yes + no)) as (tenths & Hround & Hnear).
    { simpl in Hlen. lia. }
    exists tenths. split; [|exact Hnear]. rewrite <-Hround.
    cbn [mbind result_bind]. by rewrite Hsum, Hlen.
Qed.

Lemma overtime_pct_share_witness :
  Forall overtime_flagged sample_enriched
  ∧ (Z.of_nat (length sample_enriched) < 10 ^ 9)%Z
  ∧ ∃ tenths : Z,
      overtime_pct sample_enriched
      = Ok (Py.Fin (Qc_of_Z tenths / Qc_of_Z 10))
      ∧ (2 * Z.abs (tenths * Z.of_nat (2 + 1) - 1000 * Z.of_nat 2)
         ≤ Z.of_nat (2 + 1))%Z.
Proof.
  assert (H : Forall overtime_flagged sample_enriched) by by_evaluation.
  assert (Hsize : (Z.of_nat (length sample_enriched) < 10 ^ 9)%Z)
    by by_evaluation.
  split; [exact H|]. split; [exact Hsize|].
  exact (overtime_pct_share sample_enriched H Hsize).
Defined.

Lemma numeric_column_mean (d : list (gmap string cell)) c :
  Forall (numeric_field c) d →
  ∃ s m, getitem d c = Ok s ∧ series_mean s = Ok m.
Proof.
  intros Hd.
  assert (∃ s vs, getitem d c = Ok s ∧ numeric_values s = Ok vs)
    as (s & vs & Hs & Hvs).
  { induction Hd as [|r d [x Hr] _ (s & vs & Hs & Hvs)].
    - by exists [], [].
    - rewrite getitem_cons, Hs. unfold row_get. rewrite Hr.
      cbn [mbind result_bind]. destruct x as [q|].
      + exists (CVal q :: s), (q :: vs). simpl. by rewrite Hvs.
      + exists (CNaN :: s), vs. by simpl. }
  exists s. unfold series_mean. rewrite Hvs. cbn [mbind result_bind].
  destruct vs; by eexists.
Qed.

(** X13. The average engagement index shown by line 68, rounded to two
    decimals, stays within the integer bounds of the scale whenever every
    EngagementIndex of a non-empty table does. *)
Theorem avg_engagement_index_within_scale (lo hi : Z)
    (d : list (gmap string cell)) :
  d ≠ [] →
  Forall (field_within "EngagementIndex" (Qc_of_Z lo) (Qc_of_Z hi)) d →
  ∃ m : Qc, avg_engagement_index d = Ok (Py.Fin m)
            ∧ Qc_of_Z lo ≤ m ∧ m ≤ Qc_of_Z hi.
Proof.
  intros Hne Hd.
  destruct (within_column _ _ _ _ Hd) as (s & qs & Hs & Hqs & Hlen & Hin).
  unfold avg_engagement_index. rewrite Hs. cbn [mbind result_bind].
  unfold series_mean. rewrite Hqs. cbn [mbind result_bind].
  destruct qs as [|q qs]; [by destruct d|]. cbn [mbind result_bind].
  destruct (mean_bounds _ _ (q :: qs) ltac:(done) Hin) as [Hlo Hhi].
  destruct (round_within lo hi _ 2 Hlo Hhi) as (m & Hm & ? & ?).
  rewrite Hm. by exists m.
Qed.

Lemma avg_engagement_index_within_scale_witness :
  sample_enriched ≠ []
  ∧ Forall (field_within "EngagementIndex" (Qc_of_Z 1) (Qc_of_Z 4))
           sample_enriched
  ∧ ∃ m : Qc, avg_engagement_index sample_enriched = Ok (Py.Fin m)
              ∧ Qc_of_Z 1 ≤ m ∧ m ≤ Qc_of_Z 4.
Proof.
  assert (Hne : sample_enriched ≠ []) by discriminate.
  assert (H : Forall (field_within "EngagementIndex" (Qc_of_Z 1) (Qc_of_Z 4))
                sample_enriched) by by_evaluation.
  split; [exact Hne|]. split; [exact H|].
  exact (avg_engagement_index_within_scale 1 4 sample_enriched Hne H).
Defined.

Lemma pipeline_rows (df df1 d : list (gmap string cell)) dept :
  data_prep df = Ok df1 → department_filter df1 dept = Ok d →
  ∀ r', r' ∈ d → ∃ r, r ∈ df ∧ enrich_row r = Ok r'.
Proof.
  intros Hprep Hrun r' Hr'.
  pose proof (department_filter_has_column _ _ _ Hrun) as Hcol.
  rewrite (department_filter_filter _ _ Hcol) in Hrun. injection Hrun as <-.
  apply list_elem_of_filter in Hr' as [_ Hr'].
  apply data_prep_rowwise in Hprep.
  apply list_elem_of_lookup in Hr' as [i Hi].
  destruct (Forall2_lookup_r _ _ _ _ _ Hprep Hi) as (r & Hr & Hrr').
  exists r. split; [|done]. apply list_elem_of_lookup. by exists i.
Qed.

Lemma enrich_row_overtime_flagged (r r' : gmap string cell) :
  enrich_row r = Ok r' → overtime_flagged r'.
Proof.
  intros Hr.
  apply enrich_row_Ok in Hr as (a&o&?&?&?&?&?&?&_&_&_&_&_&_&_&_&->).
  unfold overtime_flagged.
  rewrite !(lookup_insert_ne _ "EngagementIndex") by done.
  rewrite !lookup_insert_eq.
  destruct (flag_of_spec o) as [[_ ->]|[[_ ->]|(_ & _ & ->)]]; tauto.
Qed.

(** X14. On a table that follows the schema and carries a JobRole, as soon
    as the department filter leaves at least one row, none of the KPI row
    (lines 59-84), the warning share (line 202) and the risk table (lines
    205-213) raises an exception. *)
Theorem metrics_raise_nothing (df df1 d : list (gmap string cell)) dept :
  Forall schema_row df → Forall (λ r, is_Some (r !! "JobRole")) df →
  data_prep df = Ok df1 → department_filter df1 dept = Ok d → d ≠ [] →
  (∃ kpis, kpi_section d = Ok kpis)
  ∧ (∃ share, risk_pct d = Ok share)
  ∧ (∃ table, risk_table d = Ok table).
Proof.
  intros Hschema Hrole Hprep Hrun Hne.
  pose proof (pipeline_rows _ _ _ _ Hprep Hrun) as Hrows.
  assert (Henr : Forall enriched_row d).
  { eapply pipeline_enriched; [|exact Hprep|exact Hrun].
    eapply Forall_impl; [exact Hschema|]. by intros r (_&_&_&_&?). }
  assert (Hsrc : ∀ c, Forall (λ r, is_Some (r !! c)) df →
                      c ∉ derived_columns →
                      Forall (λ r, is_Some (r !! c)) d).
  { intros c Hc Hnd. rewrite Forall_forall in Hc |- *. intros r' Hr'.
    destruct (Hrows r' Hr') as (r & Hr & Hrr').
    rewrite (enrich_row_source _ _ c Hrr');
      [by apply Hc| | |]; intros ->; apply Hnd; by_evaluation. }
  assert (Hatt : Forall (λ r, is_Some (r !! "Attrition")) d).
  { apply Hsrc; [|by_evaluation].
    eapply Forall_impl; [exact Hschema|]. by intros r (?&_). }
  assert (Hjs : Forall (λ r, is_Some (r !! "JobSatisfaction")) d).
  { apply Hsrc; [|by_evaluation].
    eapply Forall_impl; [exact Hschema|]. intros r (_&_&[x ->]&_). by eexists. }
  assert (Hjr : Forall (λ r, is_Some (r !! "JobRole")) d).
  { apply Hsrc; [done|by_evaluation]. }
  assert (Hdep : Forall (λ r, is_Some (r !! "Department")) d).
  { pose proof (department_filter_has_column _ _ _ Hrun) as Hcol.
    rewrite (department_filter_filter _ _ Hcol) in Hrun. injection Hrun as <-.
    rewrite Forall_forall in Hcol |- *. intros r Hr. apply Hcol.
    by apply list_elem_of_filter in Hr as [_ ?]. }
  assert (Hflag : Forall overtime_flagged d).
  { rewrite Forall_forall. intros r' Hr'.
    destruct (Hrows r' Hr') as (r & _ & Hrr').
    by eapply enrich_row_overtime_flagged. }
  assert (Hkpi : Forall (λ r, is_Some (r !! "OverTimeFlag")
                             ∧ numeric_field "WorkLifeBalance" r) d).
  { eapply Forall_impl; [exact Henr|]. by intros r (?&?&_). }
  split; [|split].
  - unfold kpi_section. rewrite (attrition_rate_value _ Hatt).
    cbn [mbind result_bind].
    destruct (numeric_column_mean d "EngagementIndex") as (s & m & Hs & Hm).
    { eapply Forall_impl; [exact Henr|]. by intros r (_&_&?). }
    unfold avg_engagement_index. rewrite Hs. cbn [mbind result_bind].
    rewrite Hm. cbn [mbind result_bind].
    destruct (overtime_flags_values d Hflag) as (s' & vs & Hs' & Hvs & _).
    unfold overtime_pct, series_mean. rewrite Hs'. cbn [mbind result_bind].
    rewrite Hvs. cbn [mbind result_bind].
    rewrite (high_burnout_risk_pct_value _ Hne Hkpi).
    destruct vs; by eexists.
  - rewrite (risk_pct_value _ Hne Henr). by eexists.
  - unfold risk_table. rewrite (risk_df_filter _ Henr).
    cbn [mbind result_bind].
    destruct (select_columns_Ok (filter high_risk d) risk_table_columns)
      as (t & Ht & _); [|rewrite Ht; by eexists].
    rewrite Forall_forall in Henr, Hdep, Hjr, Hjs |- *. intros r Hr.
    apply list_elem_of_filter in Hr as [_ Hr].
    destruct (Henr r Hr) as (_ & [w Hw] & [i Hi]).
    assert (is_Some (r !! "WorkLifeBalance")) by (rewrite Hw; by eexists).
    assert (is_Some (r !! "EngagementIndex")) by (rewrite Hi; by eexists).
    unfold risk_table_columns. repeat (apply Forall_cons; split); auto.
Qed.

Lemma metrics_raise_nothing_witness :
  Forall schema_row sample
  ∧ ∃ d, department_filter sample_enriched [CStr "Sales"] = Ok d
         ∧ ∃ kpis, kpi_section d = Ok kpis.
Proof.
  assert (Hs : Forall schema_row sample) by by_evaluation.
  assert (Hj : Forall (λ r : gmap string cell, is_Some (r !! "JobRole"))
                 sample) by by_evaluation.
  assert (Hp : data_prep sample = Ok sample_enriched)
    by by_computation.
  assert (Hf : department_filter sample_enriched [CStr "Sales"]
               = Ok (filter (field_in "Department" [CStr "Sales"])
                            sample_enriched)) by by_computation.
  assert (Hlen : length (filter (field_in "Department" [CStr "Sales"])
                                sample_enriched) = 2%nat) by by_computation.
  assert (Hne : filter (field_in "Department" [CStr "Sales"]) sample_enriched
                ≠ []) by (intros Hnil; by rewrite Hnil in Hlen).
  split; [exact Hs|]. eexists. split; [exact Hf|].
  exact (proj1 (metrics_raise_nothing sample sample_enriched _ _
                  Hs Hj Hp Hf Hne)).
Defined.
